(** * aioice TURN client (src/aioice/turn.py): shallow embedding and properties

    The Python module is embedded function by function.  Python [bytes] are
    lists of [Byte.byte], Python [int] is [Z], Python [str] is a list of
    Unicode code points, dictionaries are [gmap]s, and [Optional] attributes
    are [option]s.  Exceptions are values of [exn]; coroutines are resumable
    computations whose suspension points are the [await]s of the source. *)

From Stdlib Require Import ZArith List Lia Bool.
From Stdlib Require Import Init.Byte.
From stdpp Require Import gmap list fin_maps strings.
From Equations Require Import Equations.
Import ListNotations.

Local Open Scope Z_scope.

(** ** Bytes, integers and [struct] *)

Abbreviation bytes := (list byte).

Definition byte_to_Z (b : byte) : Z := Z.of_N (Byte.to_N b).

Definition byte_of_Z (z : Z) : byte :=
  match Byte.of_N (Z.to_N (z mod 256)) with
  | Some b => b
  | None => x00
  end.

#[global] Instance byte_eq_dec : EqDecision byte.
Proof.
  intros a b. destruct (Byte.eqb a b) eqn:E.
  - left. now apply Byte.byte_dec_bl.
  - right. intros ->. rewrite Byte.byte_dec_lb in E; congruence.
Defined.

#[global] Instance byte_countable : Countable byte.
Proof.
  refine (inj_countable' Byte.to_N
            (fun n => match Byte.of_N n with Some b => b | None => x00 end) _).
  intros b. now rewrite Byte.of_to_N.
Defined.

(** STUN message classes and methods ([stun.Class], [stun.Method]). *)
Inductive Class := REQUEST | INDICATION | RESPONSE | ERROR.
Inductive Method := BINDING | SHARED_SECRET | ALLOCATE | REFRESH | SEND | DATA
                  | CREATE_PERMISSION | CHANNEL_BIND.

#[global] Instance Class_eq_dec : EqDecision Class.
Proof. solve_decision. Defined.
#[global] Instance Method_eq_dec : EqDecision Method.
Proof. solve_decision. Defined.

(** Python [str]: a sequence of code points. *)
Abbreviation str := (list N).
Abbreviation address := (str * Z)%type.

(** ASCII literal as a [str]. *)
Definition u (s : String.string) : str :=
  map Ascii.N_of_ascii (String.list_ascii_of_string s).

(** ASCII literal as [bytes]. *)
Definition b (s : String.string) : bytes :=
  map (fun c => byte_of_Z (Z.of_N (Ascii.N_of_ascii c)))
      (String.list_ascii_of_string s).

Arguments u s%_string.
Arguments b s%_string.

(** [len(x)] *)
Definition len {A} (l : list A) : Z := Z.of_nat (length l).

(** [x[i:j]] for [0 <= i <= j], and [x[i:]] *)
Definition slice {A} (l : list A) (i j : Z) : list A :=
  take (Z.to_nat (j - i)) (drop (Z.to_nat i) l).
Definition slice_from {A} (l : list A) (i : Z) : list A :=
  drop (Z.to_nat i) l.

(** ** Key derivation: [hashlib.md5] (RFC 1321) and [str.encode("utf8")] *)

Module MD5.

Definition add32 (a c : Z) : Z := (a + c) mod 2 ^ 32.
Definition not32 (a : Z) : Z := Z.lxor a 0xFFFFFFFF.
Definition rotl32 (x c : Z) : Z :=
  Z.lor (Z.shiftl x c mod 2 ^ 32) (Z.shiftr x (32 - c)).

Definition S_table : list Z :=
  [7; 12; 17; 22; 7; 12; 17; 22; 7; 12; 17; 22; 7; 12; 17; 22;
   5; 9; 14; 20; 5; 9; 14; 20; 5; 9; 14; 20; 5; 9; 14; 20;
   4; 11; 16; 23; 4; 11; 16; 23; 4; 11; 16; 23; 4; 11; 16; 23;
   6; 10; 15; 21; 6; 10; 15; 21; 6; 10; 15; 21; 6; 10; 15; 21].

Definition K_table : list Z :=
  [0xd76aa478; 0xe8c7b756; 0x242070db; 0xc1bdceee;
   0xf57c0faf; 0x4787c62a; 0xa8304613; 0xfd469501;
   0x698098d8; 0x8b44f7af; 0xffff5bb1; 0x895cd7be;
   0x6b901122; 0xfd987193; 0xa679438e; 0x49b40821;
   0xf61e2562; 0xc040b340; 0x265e5a51; 0xe9b6c7aa;
   0xd62f105d; 0x02441453; 0xd8a1e681; 0xe7d3fbc8;
   0x21e1cde6; 0xc33707d6; 0xf4d50d87; 0x455a14ed;
   0xa9e3e905; 0xfcefa3f8; 0x676f02d9; 0x8d2a4c8a;
   0xfffa3942; 0x8771f681; 0x6d9d6122; 0xfde5380c;
   0xa4beea44; 0x4bdecfa9; 0xf6bb4b60; 0xbebfbc70;
   0x289b7ec6; 0xeaa127fa; 0xd4ef3085; 0x04881d05;
   0xd9d4d039; 0xe6db99e5; 0x1fa27cf8; 0xc4ac5665;
   0xf4292244; 0x432aff97; 0xab9423a7; 0xfc93a039;
   0x655b59c3; 0x8f0ccc92; 0xffeff47d; 0x85845dd1;
   0x6fa87e4f; 0xfe2ce6e0; 0xa3014314; 0x4e0811a1;
   0xf7537e82; 0xbd3af235; 0x2ad7d2bb; 0xeb86d391].

(** little-endian encodings *)
Fixpoint le_bytes (n : nat) (x : Z) : bytes :=
  match n with
  | O => []
  | S n' => byte_of_Z x :: le_bytes n' (Z.shiftr x 8)
  end.

Fixpoint le_word (bs : bytes) : Z :=
  match bs with
  | [] => 0
  | c :: r => byte_to_Z c + 256 * le_word r
  end.

Definition pad (msg : bytes) : bytes :=
  let n := len msg in
  let zeros := Z.to_nat ((55 - n) mod 64) in
  msg ++ [x80] ++ repeat x00 zeros ++ le_bytes 8 ((8 * n) mod 2 ^ 64).

Fixpoint words (n : nat) (blk : bytes) : list Z :=
  match n with
  | O => []
  | S n' => le_word (firstn 4 blk) :: words n' (skipn 4 blk)
  end.

Definition round (M : list Z) (st : Z * Z * Z * Z) (i : nat) : Z * Z * Z * Z :=
  let '(A, B, C, D) := st in
  let iz := Z.of_nat i in
  let '(F, g) :=
    if iz <? 16 then (Z.lor (Z.land B C) (Z.land (not32 B) D), iz)
    else if iz <? 32 then (Z.lor (Z.land D B) (Z.land (not32 D) C), (5 * iz + 1) mod 16)
    else if iz <? 48 then (Z.lxor (Z.lxor B C) D, (3 * iz + 5) mod 16)
    else (Z.lxor C (Z.lor B (not32 D)), (7 * iz) mod 16) in
  let F' := add32 (add32 (add32 F A) (nth i K_table 0)) (nth (Z.to_nat g) M 0) in
  (D, add32 B (rotl32 F' (nth i S_table 0)), B, C).

Definition block (st : Z * Z * Z * Z) (blk : bytes) : Z * Z * Z * Z :=
  let M := words 16 blk in
  let '(a0, b0, c0, d0) := st in
  let '(A, B, C, D) := fold_left (round M) (seq 0 64) st in
  (add32 a0 A, add32 b0 B, add32 c0 C, add32 d0 D).

Fixpoint blocks (n : nat) (st : Z * Z * Z * Z) (data : bytes) : Z * Z * Z * Z :=
  match n with
  | O => st
  | S n' => blocks n' (block st (firstn 64 data)) (skipn 64 data)
  end.

Definition digest (msg : bytes) : bytes :=
  let p := pad msg in
  let '(A, B, C, D) :=
    blocks (length p / 64) (0x67452301, 0xefcdab89, 0x98badcfe, 0x10325476) p in
  le_bytes 4 A ++ le_bytes 4 B ++ le_bytes 4 C ++ le_bytes 4 D.

End MD5.

(** [str.encode("utf8")]: surrogates are refused (UnicodeEncodeError), and
    nothing above U+10FFFF is a code point. *)
Definition utf8_char (c : N) : option bytes :=
  let z := Z.of_N c in
  if z <? 0x80 then Some [byte_of_Z z]
  else if z <? 0x800 then
    Some [byte_of_Z (Z.lor 0xC0 (Z.shiftr z 6));
          byte_of_Z (Z.lor 0x80 (Z.land z 0x3F))]
  else if z <? 0x10000 then
    if (0xD800 <=? z) && (z <=? 0xDFFF) then None
    else Some [byte_of_Z (Z.lor 0xE0 (Z.shiftr z 12));
               byte_of_Z (Z.lor 0x80 (Z.land (Z.shiftr z 6) 0x3F));
               byte_of_Z (Z.lor 0x80 (Z.land z 0x3F))]
  else if z <? 0x110000 then
    Some [byte_of_Z (Z.lor 0xF0 (Z.shiftr z 18));
          byte_of_Z (Z.lor 0x80 (Z.land (Z.shiftr z 12) 0x3F));
          byte_of_Z (Z.lor 0x80 (Z.land (Z.shiftr z 6) 0x3F));
          byte_of_Z (Z.lor 0x80 (Z.land z 0x3F))]
  else None.

Fixpoint encode_utf8 (s : str) : option bytes :=
  match s with
  | [] => Some []
  | c :: r =>
      match utf8_char c, encode_utf8 r with
      | Some x, Some y => Some (x ++ y)
      | _, _ => None
      end
  end.

(** [sep.join(parts)] *)
Fixpoint join (sep : str) (parts : list str) : str :=
  match parts with
  | [] => []
  | [p] => p
  | p :: r => p ++ sep ++ join sep r
  end.

(** ** The STUN collaborator ([stun.Message], [stun.Transaction]) *)

(** Modelled from the spec: the attribute dictionary of [stun.Message] (the
    stun module is an external collaborator).  The dictionary is keyed by the
    attribute names of section 6, and the codec fixes the type of the value under
    each name, so it is a record of optional, typed entries: [None] is an absent
    key (a [KeyError] on [attributes[name]]). *)
Record Attributes := mkAttributes {
  LIFETIME : option Z;
  REQUESTED_TRANSPORT : option Z;
  CHANNEL_NUMBER : option Z;
  XOR_PEER_ADDRESS : option address;
  XOR_RELAYED_ADDRESS : option address;
  ERROR_CODE : option (Z * str);
  NONCE : option bytes;
  REALM : option str;
  USERNAME : option str;
  MESSAGE_INTEGRITY : option bytes;
  FINGERPRINT : option Z
}.

Definition set_LIFETIME (v : option Z) (x : Attributes) : Attributes :=
  mkAttributes v (REQUESTED_TRANSPORT x) (CHANNEL_NUMBER x) (XOR_PEER_ADDRESS x) (XOR_RELAYED_ADDRESS x) (ERROR_CODE x) (NONCE x) (REALM x) (USERNAME x) (MESSAGE_INTEGRITY x) (FINGERPRINT x).
Definition set_REQUESTED_TRANSPORT (v : option Z) (x : Attributes) : Attributes :=
  mkAttributes (LIFETIME x) v (CHANNEL_NUMBER x) (XOR_PEER_ADDRESS x) (XOR_RELAYED_ADDRESS x) (ERROR_CODE x) (NONCE x) (REALM x) (USERNAME x) (MESSAGE_INTEGRITY x) (FINGERPRINT x).
Definition set_CHANNEL_NUMBER (v : option Z) (x : Attributes) : Attributes :=
  mkAttributes (LIFETIME x) (REQUESTED_TRANSPORT x) v (XOR_PEER_ADDRESS x) (XOR_RELAYED_ADDRESS x) (ERROR_CODE x) (NONCE x) (REALM x) (USERNAME x) (MESSAGE_INTEGRITY x) (FINGERPRINT x).
Definition set_XOR_PEER_ADDRESS (v : option address) (x : Attributes) : Attributes :=
  mkAttributes (LIFETIME x) (REQUESTED_TRANSPORT x) (CHANNEL_NUMBER x) v (XOR_RELAYED_ADDRESS x) (ERROR_CODE x) (NONCE x) (REALM x) (USERNAME x) (MESSAGE_INTEGRITY x) (FINGERPRINT x).
Definition set_XOR_RELAYED_ADDRESS (v : option address) (x : Attributes) : Attributes :=
  mkAttributes (LIFETIME x) (REQUESTED_TRANSPORT x) (CHANNEL_NUMBER x) (XOR_PEER_ADDRESS x) v (ERROR_CODE x) (NONCE x) (REALM x) (USERNAME x) (MESSAGE_INTEGRITY x) (FINGERPRINT x).
Definition set_ERROR_CODE (v : option (Z * str)) (x : Attributes) : Attributes :=
  mkAttributes (LIFETIME x) (REQUESTED_TRANSPORT x) (CHANNEL_NUMBER x) (XOR_PEER_ADDRESS x) (XOR_RELAYED_ADDRESS x) v (NONCE x) (REALM x) (USERNAME x) (MESSAGE_INTEGRITY x) (FINGERPRINT x).
Definition set_NONCE (v : option bytes) (x : Attributes) : Attributes :=
  mkAttributes (LIFETIME x) (REQUESTED_TRANSPORT x) (CHANNEL_NUMBER x) (XOR_PEER_ADDRESS x) (XOR_RELAYED_ADDRESS x) (ERROR_CODE x) v (REALM x) (USERNAME x) (MESSAGE_INTEGRITY x) (FINGERPRINT x).
Definition set_REALM (v : option str) (x : Attributes) : Attributes :=
  mkAttributes (LIFETIME x) (REQUESTED_TRANSPORT x) (CHANNEL_NUMBER x) (XOR_PEER_ADDRESS x) (XOR_RELAYED_ADDRESS x) (ERROR_CODE x) (NONCE x) v (USERNAME x) (MESSAGE_INTEGRITY x) (FINGERPRINT x).
Definition set_USERNAME (v : option str) (x : Attributes) : Attributes :=
  mkAttributes (LIFETIME x) (REQUESTED_TRANSPORT x) (CHANNEL_NUMBER x) (XOR_PEER_ADDRESS x) (XOR_RELAYED_ADDRESS x) (ERROR_CODE x) (NONCE x) (REALM x) v (MESSAGE_INTEGRITY x) (FINGERPRINT x).
Definition set_MESSAGE_INTEGRITY (v : option bytes) (x : Attributes) : Attributes :=
  mkAttributes (LIFETIME x) (REQUESTED_TRANSPORT x) (CHANNEL_NUMBER x) (XOR_PEER_ADDRESS x) (XOR_RELAYED_ADDRESS x) (ERROR_CODE x) (NONCE x) (REALM x) (USERNAME x) v (FINGERPRINT x).
Definition set_FINGERPRINT (v : option Z) (x : Attributes) : Attributes :=
  mkAttributes (LIFETIME x) (REQUESTED_TRANSPORT x) (CHANNEL_NUMBER x) (XOR_PEER_ADDRESS x) (XOR_RELAYED_ADDRESS x) (ERROR_CODE x) (NONCE x) (REALM x) (USERNAME x) (MESSAGE_INTEGRITY x) v.

Definition no_attributes : Attributes :=
  mkAttributes None None None None None None None None None None None.

(** Modelled from the spec: [stun.Message], a method, a class, a transaction
    id and attributes; the object is mutable. *)
Record Message := mkMessage {
  message_method : Method;
  message_class : Class;
  transaction_id : bytes;
  attributes : Attributes
}.

Definition set_transaction_id (v : bytes) (x : Message) : Message :=
  mkMessage (message_method x) (message_class x) v (attributes x).
Definition set_attributes (v : Attributes) (x : Message) : Message :=
  mkMessage (message_method x) (message_class x) (transaction_id x) v.

(** Modelled from the spec: [stun.Transaction(request, addr, protocol)], one
    outstanding request and its destination. *)
Record Transaction := mkTransaction {
  t_request : Message;
  t_addr : address
}.

(** ** Exceptions and results *)

Inductive exn :=
| AssertionError
| AttributeError (name : string)
| IndexError
| KeyError (key : string)
| StructError
| UnicodeEncodeError
| TransactionFailed (response : Message)
| TransactionTimeout
| CancelledError.

Inductive result (A : Type) :=
| Return (a : A)
| Raise (e : exn).
Arguments Return {A} a.
Arguments Raise {A} e.

Definition is_Return {A} (r : result A) : bool :=
  match r with Return _ => true | Raise _ => false end.

(** ** Module-level functions *)

Definition TCP_TRANSPORT : Z := 0x06000000.
Definition UDP_TRANSPORT : Z := 0x11000000.

(** [struct.unpack("!HH", data)] *)
Definition unpack_HH (data : bytes) : result (Z * Z) :=
  match data with
  | [b0; b1; b2; b3] =>
      Return (256 * byte_to_Z b0 + byte_to_Z b1, 256 * byte_to_Z b2 + byte_to_Z b3)
  | _ => Raise StructError
  end.

(** [struct.pack("!HH", x, y)] *)
Definition pack_HH (x y : Z) : result bytes :=
  if (0 <=? x) && (x <=? 0xFFFF) && (0 <=? y) && (y <=? 0xFFFF) then
    Return [byte_of_Z (Z.shiftr x 8); byte_of_Z x; byte_of_Z (Z.shiftr y 8); byte_of_Z y]
  else Raise StructError.

Definition is_channel_data (data : bytes) : result bool :=
  match data with
  | [] => Raise IndexError
  | b0 :: _ => Return (Z.land (byte_to_Z b0) 0xC0 =? 0x40)
  end.

Definition make_integrity_key (username realm password : str) : result bytes :=
  match encode_utf8 (join (u ":") [username; realm; password]) with
  | Some data => Return (MD5.digest data)
  | None => Raise UnicodeEncodeError
  end.

(** ** Client object and its environment *)

(** What the asyncio transport tells about itself ([get_extra_info]). *)
Record Transport := mkTransport {
  peername : option address;
  sockname : option address
}.

(** The attributes of a protocol object, in the order of
    [TurnClientMixin.__init__]; [transport] is the attribute that
    [connection_made] creates and [buffer] the one [TurnStreamMixin.data_received]
    creates on first use ([None]: the attribute does not exist yet). *)
Record TurnClient := mkTurnClient {
  channel_to_peer : gmap Z address;
  peer_to_channel : gmap address Z;
  channel_number : Z;
  integrity_key : option bytes;
  lifetime : Z;
  nonce : option bytes;
  password : str;
  receiver : option nat;
  realm : option str;
  refresh_handle : option nat;
  relayed_address : option address;
  server : address;
  transactions : gmap bytes Transaction;
  username : str;
  transport : option Transport;
  buffer : option bytes
}.

Definition set_channel_to_peer (v : gmap Z address) (x : TurnClient) : TurnClient :=
  mkTurnClient v (peer_to_channel x) (channel_number x) (integrity_key x) (lifetime x) (nonce x) (password x) (receiver x) (realm x) (refresh_handle x) (relayed_address x) (server x) (transactions x) (username x) (transport x) (buffer x).
Definition set_peer_to_channel (v : gmap address Z) (x : TurnClient) : TurnClient :=
  mkTurnClient (channel_to_peer x) v (channel_number x) (integrity_key x) (lifetime x) (nonce x) (password x) (receiver x) (realm x) (refresh_handle x) (relayed_address x) (server x) (transactions x) (username x) (transport x) (buffer x).
Definition set_channel_number (v : Z) (x : TurnClient) : TurnClient :=
  mkTurnClient (channel_to_peer x) (peer_to_channel x) v (integrity_key x) (lifetime x) (nonce x) (password x) (receiver x) (realm x) (refresh_handle x) (relayed_address x) (server x) (transactions x) (username x) (transport x) (buffer x).
Definition set_integrity_key (v : option bytes) (x : TurnClient) : TurnClient :=
  mkTurnClient (channel_to_peer x) (peer_to_channel x) (channel_number x) v (lifetime x) (nonce x) (password x) (receiver x) (realm x) (refresh_handle x) (relayed_address x) (server x) (transactions x) (username x) (transport x) (buffer x).
Definition set_nonce (v : option bytes) (x : TurnClient) : TurnClient :=
  mkTurnClient (channel_to_peer x) (peer_to_channel x) (channel_number x) (integrity_key x) (lifetime x) v (password x) (receiver x) (realm x) (refresh_handle x) (relayed_address x) (server x) (transactions x) (username x) (transport x) (buffer x).
Definition set_receiver (v : option nat) (x : TurnClient) : TurnClient :=
  mkTurnClient (channel_to_peer x) (peer_to_channel x) (channel_number x) (integrity_key x) (lifetime x) (nonce x) (password x) v (realm x) (refresh_handle x) (relayed_address x) (server x) (transactions x) (username x) (transport x) (buffer x).
Definition set_realm (v : option str) (x : TurnClient) : TurnClient :=
  mkTurnClient (channel_to_peer x) (peer_to_channel x) (channel_number x) (integrity_key x) (lifetime x) (nonce x) (password x) (receiver x) v (refresh_handle x) (relayed_address x) (server x) (transactions x) (username x) (transport x) (buffer x).
Definition set_refresh_handle (v : option nat) (x : TurnClient) : TurnClient :=
  mkTurnClient (channel_to_peer x) (peer_to_channel x) (channel_number x) (integrity_key x) (lifetime x) (nonce x) (password x) (receiver x) (realm x) v (relayed_address x) (server x) (transactions x) (username x) (transport x) (buffer x).
Definition set_relayed_address (v : option address) (x : TurnClient) : TurnClient :=
  mkTurnClient (channel_to_peer x) (peer_to_channel x) (channel_number x) (integrity_key x) (lifetime x) (nonce x) (password x) (receiver x) (realm x) (refresh_handle x) v (server x) (transactions x) (username x) (transport x) (buffer x).
Definition set_transactions (v : gmap bytes Transaction) (x : TurnClient) : TurnClient :=
  mkTurnClient (channel_to_peer x) (peer_to_channel x) (channel_number x) (integrity_key x) (lifetime x) (nonce x) (password x) (receiver x) (realm x) (refresh_handle x) (relayed_address x) (server x) v (username x) (transport x) (buffer x).
Definition set_transport (v : option Transport) (x : TurnClient) : TurnClient :=
  mkTurnClient (channel_to_peer x) (peer_to_channel x) (channel_number x) (integrity_key x) (lifetime x) (nonce x) (password x) (receiver x) (realm x) (refresh_handle x) (relayed_address x) (server x) (transactions x) (username x) v (buffer x).
Definition set_buffer (v : option bytes) (x : TurnClient) : TurnClient :=
  mkTurnClient (channel_to_peer x) (peer_to_channel x) (channel_number x) (integrity_key x) (lifetime x) (nonce x) (password x) (receiver x) (realm x) (refresh_handle x) (relayed_address x) (server x) (transactions x) (username x) (transport x) v.

(** [TurnClientMixin.__init__] *)
Definition init (server : address) (username password : str) (lifetime : Z) : TurnClient :=
  {| channel_to_peer := ∅;
     peer_to_channel := ∅;
     channel_number := 0x4000;
     integrity_key := None;
     lifetime := lifetime;
     nonce := None;
     password := password;
     receiver := None;
     realm := None;
     refresh_handle := None;
     relayed_address := None;
     server := server;
     transactions := ∅;
     username := username;
     transport := None;
     buffer := None |}.

(** Calls that leave the object, in the order they are made. *)
Inductive event :=
| transport_send (data : bytes)
| receiver_datagram_received (payload : bytes) (peer : address)
| receiver_connection_lost
| response_received (tid : bytes) (message : Message) (addr : option address)
| transaction_run (t : Transaction)
| future_cancel (handle : nat)
| ensure_future_refresh (handle : nat).

(** The object together with what it acts on: the number of transaction ids
    drawn from [random_transaction_id] so far, the number of futures created,
    and the calls made to the transport, the receiver, the transactions and
    the event loop. *)
Record world := mkWorld {
  self : TurnClient;
  drawn : nat;
  futures : nat;
  trace : list event
}.

Definition set_self (v : TurnClient) (x : world) : world :=
  mkWorld v (drawn x) (futures x) (trace x).
Definition set_drawn (v : nat) (x : world) : world :=
  mkWorld (self x) v (futures x) (trace x).
Definition set_futures (v : nat) (x : world) : world :=
  mkWorld (self x) (drawn x) v (trace x).
Definition set_trace (v : list event) (x : world) : world :=
  mkWorld (self x) (drawn x) (futures x) v.

Definition fresh (c : TurnClient) : world := mkWorld c 0 0 [].

Definition upd (f : TurnClient -> TurnClient) (w : world) : world :=
  set_self (f (self w)) w.

Definition emit (e : event) (w : world) : world :=
  set_trace (trace w ++ [e]) w.

(** Python truthiness of [Optional[bytes]] and of an optional object. *)
Definition truthy_bytes (o : option bytes) : bool :=
  match o with Some (_ :: _) => true | _ => false end.
Definition truthy {A} (o : option A) : bool :=
  match o with Some _ => true | None => false end.

(** ** Coroutines

    An [async def] runs until it returns, raises, or reaches an [await] on the
    event loop.  The two awaits of the module that give control away are
    [transaction.run()] and [asyncio.sleep(...)].  A suspended coroutine is
    resumed with the result of the await (a value, or an exception thrown into
    it: a failure, a timeout, a cancellation) and with the object as it is at
    that moment, since other tasks may have run in between. *)
Inductive step (A : Type) :=
| Done (w : world) (r : result A)
| AwaitRun (w : world) (t : Transaction)
    (k : result (Message * option address) -> world -> step A)
| AwaitSleep (w : world) (lifetime : Z) (k : result unit -> world -> step A).
Arguments Done {A} w r.
Arguments AwaitRun {A} w t k.
Arguments AwaitSleep {A} w lifetime k.

Abbreviation coro A := (world -> step A).

Fixpoint bind_step {A B} (s : step A) (f : A -> coro B) : step B :=
  match s with
  | Done w (Return a) => f a w
  | Done w (Raise e) => Done w (Raise e)
  | AwaitRun w t k => AwaitRun w t (fun r w' => bind_step (k r w') f)
  | AwaitSleep w l k => AwaitSleep w l (fun r w' => bind_step (k r w') f)
  end.

(** [try: s  except ...: h], where [h e] is the handler when [e] is caught. *)
Fixpoint catch_step {A} (s : step A) (h : exn -> option (coro A)) : step A :=
  match s with
  | Done w (Return a) => Done w (Return a)
  | Done w (Raise e) =>
      match h e with
      | Some handler => handler w
      | None => Done w (Raise e)
      end
  | AwaitRun w t k => AwaitRun w t (fun r w' => catch_step (k r w') h)
  | AwaitSleep w l k => AwaitSleep w l (fun r w' => catch_step (k r w') h)
  end.

Definition ret {A} (a : A) : coro A := fun w => Done w (Return a).
Definition raise {A} (e : exn) : coro A := fun w => Done w (Raise e).
Definition bind {A B} (m : coro A) (f : A -> coro B) : coro B :=
  fun w => bind_step (m w) f.
Definition try_except {A} (m : coro A) (h : exn -> option (coro A)) : coro A :=
  fun w => catch_step (m w) h.
Definition gets {A} (f : TurnClient -> A) : coro A :=
  fun w => Done w (Return (f (self w))).
Definition modify (f : TurnClient -> TurnClient) : coro unit :=
  fun w => Done (upd f w) (Return tt).
Definition call (e : event) : coro unit :=
  fun w => Done (emit e w) (Return tt).
Definition of_result {A} (r : result A) : coro A :=
  fun w => Done w r.
(** [d[key]] on an attribute dictionary *)
Definition item {A} (key : string) (o : option A) : coro A :=
  match o with
  | Some v => ret v
  | None => raise (KeyError key)
  end.
(** a plain method called from a coroutine *)
Definition lift {A} (f : world -> world * result A) : coro A :=
  fun w => let '(w', r) := f w in Done w' r.

Notation "'let*' x ':=' m 'in' k" := (bind m (fun x => k))
  (at level 10, x name, m at level 100, k at level 200, only parsing).

(** ** Running coroutines

    [run_script s script] resumes [s] with the results of [script], one per
    await, with no other task running in between. *)
Inductive resume :=
| ResumeRun (r : result (Message * option address))
| ResumeSleep (r : result unit).

Fixpoint run_script {A} (s : step A) (script : list resume) : step A :=
  match s, script with
  | AwaitRun w t k, ResumeRun r :: rest => run_script (k r w) rest
  | AwaitSleep w l k, ResumeSleep r :: rest => run_script (k r w) rest
  | _, _ => s
  end.

Lemma run_script_nil {A} (s : step A) : run_script s [] = s.
Proof. now destruct s. Qed.

(** The world a step stands in: where the coroutine finished or is suspended. *)
Definition world_of {A} (s : step A) : world :=
  match s with
  | Done w _ => w
  | AwaitRun w _ _ => w
  | AwaitSleep w _ _ => w
  end.

Definition finished {A} (s : step A) : option (result A) :=
  match s with
  | Done _ r => Some r
  | _ => None
  end.

Section Client.

(** Modelled from the spec: [stun.parse_message], which returns the message
    or raises [ValueError] ([None]) on bytes that are not a STUN message. *)
Variable parse_message : bytes -> option Message.
(** Modelled from the spec: [bytes(message)], the wire encoding. *)
Variable message_bytes : Message -> bytes.
(** Modelled from the spec: the values that [Message.add_message_integrity]
    and [Message.add_fingerprint] store under MESSAGE-INTEGRITY and
    FINGERPRINT. *)
Variable message_integrity : Message -> bytes -> bytes.
Variable message_fingerprint : Message -> Z.
(** Modelled from the spec: [utils.random_transaction_id]; the [n]-th call
    returns [random_transaction_id n]. *)
Variable random_transaction_id : nat -> bytes.

(** [stun.Message(message_method=..., message_class=...)]: a message with a
    freshly drawn transaction id and no attributes. *)
Definition draw_transaction_id : coro bytes :=
  fun w => Done (set_drawn (S (drawn w)) w) (Return (random_transaction_id (drawn w))).

Definition new_message (m : Method) (c : Class) : coro Message :=
  let* tid := draw_transaction_id in
  ret (mkMessage m c tid no_attributes).

(** [asyncio.sleep(5 / 6 * lifetime)] *)
Definition sleep (lifetime : Z) : coro unit :=
  fun w => AwaitSleep w lifetime (fun r w' => Done w' r).

(** [asyncio.ensure_future(self.refresh())] *)
Definition ensure_future_refresh_ : coro nat :=
  fun w =>
    Done (emit (ensure_future_refresh (futures w)) (set_futures (S (futures w)) w))
         (Return (futures w)).

(** [self._send(data)]: [transport.write] (TCP) or [transport.sendto] (UDP) *)
Definition _send (data : bytes) (w : world) : world * result unit :=
  match transport (self w) with
  | Some _ => (emit (transport_send data) w, Return tt)
  | None => (w, Raise (AttributeError "transport"))
  end.

Definition connection_made (tr : Transport) (w : world) : world * result unit :=
  (upd (set_transport (Some tr)) w, Return tt).

Definition send_stun (message : Message) (addr : address) (w : world)
  : world * result unit :=
  _send (message_bytes message) w.

Definition is_response (c : Class) : bool :=
  bool_decide (c = RESPONSE) || bool_decide (c = ERROR).

Definition datagram_received (data : bytes) (addr : option address) (w : world)
  : world * result unit :=
  match (if 4 <=? len data then is_channel_data data else Return false) with
  | Raise e => (w, Raise e)
  | Return true =>
      (* demultiplex channel data *)
      match unpack_HH (slice data 0 4) with
      | Raise e => (w, Raise e)
      | Return (channel, length) =>
          if (length + 4 <=? len data) && truthy (receiver (self w)) then
            match channel_to_peer (self w) !! channel with
            | Some peer_address =>
                let payload := slice data 4 (4 + length) in
                (emit (receiver_datagram_received payload peer_address) w, Return tt)
            | None => (w, Return tt)
            end
          else (w, Return tt)
      end
  | Return false =>
      match parse_message data with
      | None => (w, Return tt)
      | Some message =>
          if is_response (message_class message)
             && bool_decide (is_Some (transactions (self w) !! transaction_id message))
          then
            match transactions (self w) !! transaction_id message with
            | Some transaction =>
                (emit (response_received (transaction_id message) message addr) w,
                 Return tt)
            | None => (w, Raise (KeyError "transaction_id"))
            end
          else (w, Return tt)
      end
  end.

(** [__add_authentication] *)
Definition add_authentication (c : TurnClient) (key : bytes) (request : Message)
  : Message :=
  let a := attributes request in
  let a := set_USERNAME (Some (username c)) a in
  let a := set_NONCE (nonce c) a in
  let a := set_REALM (realm c) a in
  let request := set_attributes a request in
  let request :=
    set_attributes
      (set_MESSAGE_INTEGRITY (Some (message_integrity request key)) (attributes request))
      request in
  set_attributes
    (set_FINGERPRINT (Some (message_fingerprint request)) (attributes request))
    request.

(** The request object as [request()] leaves it: the method mutates its
    argument, and the caller keeps the reference. *)
Definition authenticated (c : TurnClient) (request : Message) : Message :=
  match integrity_key c with
  | Some (x :: key) => add_authentication c (x :: key) request
  | _ => request
  end.

Definition request (request : Message) : coro (Message * option address) :=
  fun w =>
    if bool_decide (is_Some (transactions (self w) !! transaction_id request))
    then Done w (Raise AssertionError)
    else
      let request := authenticated (self w) request in
      let transaction := mkTransaction request (server (self w)) in
      let w :=
        upd (fun c => set_transactions
                        (<[transaction_id request := transaction]> (transactions c)) c) w in
      AwaitRun (emit (transaction_run transaction) w) transaction
        (fun r w' =>
           (* finally: del self.transactions[request.transaction_id] *)
           match transactions (self w') !! transaction_id request with
           | Some _ =>
               Done (upd (fun c => set_transactions
                                     (delete (transaction_id request) (transactions c)) c) w')
                    r
           | None => Done w' (Raise (KeyError "transaction_id"))
           end).

Definition channel_bind (channel_number : Z) (addr : address) : coro unit :=
  let* request0 := new_message CHANNEL_BIND REQUEST in
  let a := set_CHANNEL_NUMBER (Some channel_number) (attributes request0) in
  let a := set_XOR_PEER_ADDRESS (Some addr) a in
  let* _ := request (set_attributes a request0) in
  ret tt.

Definition connect : coro address :=
  let* request0 := new_message ALLOCATE REQUEST in
  let* lt := gets lifetime in
  let a := set_LIFETIME (Some lt) (attributes request0) in
  let a := set_REQUESTED_TRANSPORT (Some UDP_TRANSPORT) a in
  let request1 := set_attributes a request0 in
  (* the same object once [request()] has run on it *)
  let* request2 := gets (fun c => authenticated c request1) in
  let* response :=
    try_except
      (let* r := request request1 in ret (fst r))
      (fun e =>
         match e with
         | TransactionFailed response =>
             Some (let* error_code := item "ERROR-CODE" (ERROR_CODE (attributes response)) in
                   if fst error_code =? 401 then
                     (* update long-term credentials *)
                     let* n := item "NONCE" (NONCE (attributes response)) in
                     let* _ := modify (set_nonce (Some n)) in
                     let* r := item "REALM" (REALM (attributes response)) in
                     let* _ := modify (set_realm (Some r)) in
                     let* c := gets id in
                     (* [self.realm] is [r] here *)
                     let* key := of_result (make_integrity_key (username c) r (password c)) in
                     let* _ := modify (set_integrity_key (Some key)) in
                     (* retry request with authentication *)
                     let* tid := draw_transaction_id in
                     let request3 := set_transaction_id tid request2 in
                     let* r := request request3 in
                     ret (fst r)
                   else ret response)
         | _ => None
         end) in
  let* relayed := item "XOR-RELAYED-ADDRESS" (XOR_RELAYED_ADDRESS (attributes response)) in
  let* _ := modify (set_relayed_address (Some relayed)) in
  (* periodically refresh allocation *)
  let* handle := ensure_future_refresh_ in
  let* _ := modify (set_refresh_handle (Some handle)) in
  ret relayed.

Definition delete : coro unit :=
  let* h := gets refresh_handle in
  let* _ :=
    match h with
    | Some handle =>
        let* _ := call (future_cancel handle) in
        modify (set_refresh_handle None)
    | None => ret tt
    end in
  let* request0 := new_message REFRESH REQUEST in
  let a := set_LIFETIME (Some 0) (attributes request0) in
  let* _ := request (set_attributes a request0) in
  let* rc := gets receiver in
  if truthy rc then call receiver_connection_lost else ret tt.

(** One turn of the [while True] loop of [refresh]; the loop runs the body
    again whenever it returns. *)
Definition refresh_body : coro unit :=
  let* lt := gets lifetime in
  let* _ := sleep lt in
  let* request0 := new_message REFRESH REQUEST in
  let* lt := gets lifetime in
  let a := set_LIFETIME (Some lt) (attributes request0) in
  let* _ := request (set_attributes a request0) in
  ret tt.

Definition send_data (data : bytes) (addr : address) : coro unit :=
  let* bound := gets (fun c => peer_to_channel c !! addr) in
  let* channel :=
    match bound with
    | Some channel => ret channel
    | None =>
        let* channel := gets channel_number in
        let* _ := modify (fun c => set_channel_number (channel_number c + 1) c) in
        let* _ := modify (fun c => set_channel_to_peer
                                     (<[channel := addr]> (channel_to_peer c)) c) in
        let* _ := modify (fun c => set_peer_to_channel
                                     (<[addr := channel]> (peer_to_channel c)) c) in
        (* bind channel *)
        let* _ := channel_bind channel addr in
        ret channel
    end in
  let* header := of_result (pack_HH channel (len data)) in
  lift (_send (header ++ data)).

(** *** [TurnStreamMixin.data_received]

    One turn of the [while len(self.buffer) >= 4] loop: it ends the loop
    ([Break], also when the loop condition fails), goes round again
    ([Continue]) or lets an exception through. *)
Inductive iteration :=
| Break
| Continue (w : world)
| Raised (w : world) (e : exn).

Definition loop_iteration (w : world) : iteration :=
  match buffer (self w) with
  | None => Raised w (AttributeError "buffer")
  | Some buf =>
      if 4 <=? len buf then
        match unpack_HH (slice buf 0 4) with
        | Raise e => Raised w e
        | Return (_, length) =>
            match is_channel_data buf with
            | Raise e => Raised w e
            | Return cd =>
                let full_length := if cd then 4 + length else 20 + length in
                if len buf <? full_length then Break
                else
                  match transport (self w) with
                  | None => Raised w (AttributeError "transport")
                  | Some tr =>
                      let addr := peername tr in
                      match datagram_received (slice buf 0 full_length) addr w with
                      | (w1, Raise e) => Raised w1 e
                      | (w1, Return _) =>
                          match buffer (self w1) with
                          | None => Raised w1 (AttributeError "buffer")
                          | Some buf1 =>
                              Continue (upd (set_buffer (Some (slice_from buf1 full_length))) w1)
                          end
                      end
                  end
            end
        end
      else Break
  end.

Definition buffered (w : world) : bytes := default [] (buffer (self w)).

Lemma byte_to_Z_range (x : byte) : 0 <= byte_to_Z x < 256.
Proof. destruct x; vm_compute; split; congruence. Qed.

Lemma unpack_HH_range data x y :
  unpack_HH data = Return (x, y) -> 0 <= x <= 0xFFFF /\ 0 <= y <= 0xFFFF.
Proof.
  destruct data as [|b0 [|b1 [|b2 [|b3 [|? ?]]]]]; simpl; try discriminate.
  intros [= <- <-].
  pose proof (byte_to_Z_range b0). pose proof (byte_to_Z_range b1).
  pose proof (byte_to_Z_range b2). pose proof (byte_to_Z_range b3). lia.
Qed.

(** [datagram_received] only ever adds a call to the trace. *)
Lemma datagram_received_self data addr w :
  self (datagram_received data addr w).1 = self w
  /\ drawn (datagram_received data addr w).1 = drawn w
  /\ futures (datagram_received data addr w).1 = futures w.
Proof.
  unfold datagram_received.
  repeat (match goal with
          | |- context [match ?x with _ => _ end] => destruct x
          end; simpl; try done).
Qed.

Lemma loop_iteration_shrinks w w' :
  loop_iteration w = Continue w' ->
  (length (buffered w') < length (buffered w))%nat.
Proof.
  unfold loop_iteration, buffered.
  destruct (buffer (self w)) as [buf|] eqn:Hbuf; [|discriminate].
  destruct (4 <=? len buf) eqn:H4; [|discriminate].
  destruct (unpack_HH (slice buf 0 4)) as [[x length]|] eqn:Hun; [|discriminate].
  destruct (is_channel_data buf) as [cd|]; [|discriminate].
  set (full_length := if cd then 4 + length else 20 + length).
  destruct (len buf <? full_length) eqn:Hlt; [discriminate|].
  destruct (transport (self w)); [|discriminate].
  pose proof (datagram_received_self (slice buf 0 full_length) (peername t) w) as (Hs & _).
  destruct (datagram_received (slice buf 0 full_length) (peername t) w) as [w1 [[]|e]];
    [|discriminate].
  simpl in Hs. rewrite Hs, Hbuf.
  intros [= <-]. simpl. unfold slice_from. rewrite length_drop.
  apply unpack_HH_range in Hun as [_ Hl].
  apply Z.leb_le in H4. apply Z.ltb_ge in Hlt. unfold len in *.
  assert (4 <= full_length) by (subst full_length; destruct cd; lia).
  lia.
Defined.

(** Case analysis that keeps the equation, for the termination argument. *)
Definition inspect {A : Type} (x : A) : { y : A | x = y } := exist _ x eq_refl.

Equations data_received_loop (w : world) : world * result unit
  by wf (length (buffered w)) lt :=
  data_received_loop w with inspect (loop_iteration w) := {
    | exist _ Break _ => (w, Return tt)
    | exist _ (Continue w') H => data_received_loop w'
    | exist _ (Raised w' e) _ => (w', Raise e) }.
Next Obligation. now apply loop_iteration_shrinks. Defined.

Definition data_received (data : bytes) (w : world) : world * result unit :=
  let w :=
    match buffer (self w) with
    | None => upd (set_buffer (Some [])) w
    | Some _ => w
    end in
  let w := upd (fun c => set_buffer (Some (buffered w ++ data)) c) w in
  data_received_loop w.

Ltac unfold_coro :=
  unfold channel_bind, new_message, draw_transaction_id, ensure_future_refresh_, sleep,
    try_except, bind, ret, raise, gets, modify, call, of_result, item, lift.

Tactic Notation "unfold_coro" "in" hyp(H) :=
  unfold channel_bind, new_message, draw_transaction_id, ensure_future_refresh_, sleep,
    try_except, bind, ret, raise, gets, modify, call, of_result, item, lift in H.

(** ** Properties of [request] *)

Lemma request_registered req w :
  is_Some (transactions (self w) !! transaction_id req) ->
  request req w = Done w (Raise AssertionError).
Proof.
  intros H. unfold request. now rewrite bool_decide_eq_true_2.
Qed.

Lemma authenticated_transaction_id c req :
  transaction_id (authenticated c req) = transaction_id req.
Proof.
  unfold authenticated. destruct (integrity_key c) as [[|x key]|]; reflexivity.
Qed.

Lemma request_start req w :
  transactions (self w) !! transaction_id req = None ->
  let t := mkTransaction (authenticated (self w) req) (server (self w)) in
  request req w =
  AwaitRun
    (emit (transaction_run t)
       (upd (fun c => set_transactions (<[transaction_id req := t]> (transactions c)) c) w))
    t
    (fun r w' =>
       match transactions (self w') !! transaction_id req with
       | Some _ =>
           Done (upd (fun c => set_transactions
                                 (base.delete (transaction_id req) (transactions c)) c) w')
                r
       | None => Done w' (Raise (KeyError "transaction_id"))
       end).
Proof.
  intros Hnone t. unfold request.
  rewrite bool_decide_eq_false_2 by (rewrite Hnone; apply is_Some_None).
  now rewrite authenticated_transaction_id.
Qed.

(** C7. [request] asserts that the transaction id of the request is not
    registered (on a registered id it raises [AssertionError] and changes
    nothing).  On an unregistered id it registers the transaction and awaits
    [transaction.run()]; whatever the await delivers, a response, a failure, a
    timeout or a cancellation, the [finally] clause removes the entry, the
    call ends with that very result, and the registry is the one it was
    before the call (the one at resumption minus the entry, when other tasks
    ran in between). *)
Theorem request_releases_transaction (req : Message) (w : world) :
  (is_Some (transactions (self w) !! transaction_id req) ->
   request req w = Done w (Raise AssertionError))
  /\ (transactions (self w) !! transaction_id req = None ->
      exists w1 t k,
        request req w = AwaitRun w1 t k
        /\ t_request t = authenticated (self w) req
        /\ transactions (self w1) = <[transaction_id req := t]> (transactions (self w))
        /\ (forall r, exists w2,
               k r w1 = Done w2 r
               /\ transactions (self w2) = transactions (self w))
        /\ (forall r w', is_Some (transactions (self w') !! transaction_id req) ->
               exists w2,
                 k r w' = Done w2 r
                 /\ transactions (self w2)
                    = base.delete (transaction_id req) (transactions (self w')))).
Proof.
  split; [apply request_registered|].
  intros Hnone. unfold request.
  rewrite bool_decide_eq_false_2 by (rewrite Hnone; apply is_Some_None).
  rewrite authenticated_transaction_id.
  eexists _, _, _. split; [reflexivity|].
  split; [reflexivity|]. split; [reflexivity|]. split.
  - intros r. simpl. rewrite lookup_insert_eq. eexists. split; [reflexivity|].
    simpl. now apply delete_insert_id.
  - intros r w' [t Ht]. rewrite Ht. eexists. split; reflexivity.
Qed.

(** ** Properties of [datagram_received] *)

(** The top two bits of a byte are 01. *)
Definition top_bits_01 (x : byte) : Prop :=
  Z.testbit (byte_to_Z x) 7 = false /\ Z.testbit (byte_to_Z x) 6 = true.

(** At least four bytes, the first with top bits 01. *)
Definition channel_data_header (data : bytes) : Prop :=
  match data with
  | b0 :: _ :: _ :: _ :: _ => top_bits_01 b0
  | _ => False
  end.

Lemma is_channel_data_top_bits b0 rest :
  is_channel_data (b0 :: rest) = Return true <-> top_bits_01 b0.
Proof.
  unfold top_bits_01, is_channel_data.
  destruct b0; vm_compute; split; try discriminate; try (intros [? ?]; discriminate);
    try (split; reflexivity); reflexivity.
Qed.

Lemma is_channel_data_not_top_bits b0 rest :
  is_channel_data (b0 :: rest) = Return false <-> ~ top_bits_01 b0.
Proof.
  rewrite <- is_channel_data_top_bits with (rest := rest).
  unfold is_channel_data. destruct (_ =? _); split; congruence.
Qed.

Lemma slice_header (b0 b1 b2 b3 : byte) rest :
  slice (b0 :: b1 :: b2 :: b3 :: rest) 0 4 = [b0; b1; b2; b3].
Proof. reflexivity. Qed.

Lemma slice_payload (b0 b1 b2 b3 : byte) rest n :
  0 <= n ->
  slice (b0 :: b1 :: b2 :: b3 :: rest) 4 (4 + n) = take (Z.to_nat n) rest.
Proof.
  intros Hn. unfold slice. replace (4 + n - 4) with n by lia. reflexivity.
Qed.

Lemma len_cons {A} (x : A) l : len (x :: l) = 1 + len l.
Proof. unfold len. simpl length. lia. Qed.

Lemma len_nonneg {A} (l : list A) : 0 <= len l.
Proof. unfold len. lia. Qed.

Ltac stun_branch :=
  match goal with
  | |- context [parse_message ?d] =>
      destruct (parse_message d) as [?m|]; [|done];
      match goal with
      | |- context [is_response ?c && bool_decide ?P] =>
          destruct (is_response c && bool_decide P) eqn:?E; [|done];
          apply andb_true_iff in E as [_ E];
          apply bool_decide_eq_true in E as [?t ?Ht];
          rewrite Ht; done
      end
  end.

Lemma datagram_received_returns data addr w :
  (datagram_received data addr w).2 = Return tt.
Proof.
  unfold datagram_received.
  destruct (4 <=? len data) eqn:H4; [|stun_branch].
  destruct data as [|b0 [|b1 [|b2 [|b3 rest]]]]; try (vm_compute in H4; discriminate).
  simpl is_channel_data. rewrite slice_header. simpl unpack_HH.
  destruct (_ =? _); [|stun_branch].
  destruct (_ && _); [|done].
  destruct (_ !! _); done.
Qed.


(** ** Properties of [send_data] *)

(** [send_data data addr] completes at once, without any transaction, and at
    most writes one ChannelData frame on [channel] to the transport; it does
    write it when the transport is set and the header can be packed. *)
Definition sends_on_channel (data : bytes) (addr : address) (channel : Z) (w : world)
  : Prop :=
  exists w' r,
    send_data data addr w = Done w' r
    /\ self w' = self w
    /\ (trace w' = trace w
        \/ exists header, pack_HH channel (len data) = Return header
                          /\ trace w' = trace w ++ [transport_send (header ++ data)])
    /\ (forall header tr,
          pack_HH channel (len data) = Return header ->
          transport (self w) = Some tr ->
          r = Return tt /\ trace w' = trace w ++ [transport_send (header ++ data)]).

Lemma send_data_bound data addr channel w :
  peer_to_channel (self w) !! addr = Some channel ->
  sends_on_channel data addr channel w.
Proof.
  intros Hb. unfold sends_on_channel, send_data, bind, gets. simpl. rewrite Hb. simpl.
  unfold of_result. simpl.
  destruct (pack_HH channel (len data)) as [header|e] eqn:Hp; simpl.
  - unfold lift, _send. destruct (transport (self w)) as [tr|] eqn:Htr; simpl.
    + eexists _, _. split; [reflexivity|]. split; [reflexivity|]. split.
      * right. eauto.
      * intros ? ? [= <-] _. done.
    + eexists _, _. split; [reflexivity|]. split; [reflexivity|]. split; [by left|].
      intros ? ? _ [=].
  - eexists _, _. split; [reflexivity|]. split; [reflexivity|]. split; [by left|].
    intros ? ? [=].
Qed.

(** The state in which the first [send_data] to [addr] awaits the bind. *)
Definition bind_recorded (addr : address) (w : world) : TurnClient :=
  let c := self w in
  let channel := channel_number c in
  let c := set_channel_number (channel + 1) c in
  let c := set_channel_to_peer (<[channel := addr]> (channel_to_peer c)) c in
  set_peer_to_channel (<[addr := channel]> (peer_to_channel c)) c.

Definition bind_request (addr : address) (w : world) : Message :=
  let a := set_CHANNEL_NUMBER (Some (channel_number (self w))) no_attributes in
  let a := set_XOR_PEER_ADDRESS (Some addr) a in
  mkMessage CHANNEL_BIND REQUEST (random_transaction_id (drawn w)) a.

Lemma send_data_unbound data addr w :
  peer_to_channel (self w) !! addr = None ->
  transactions (self w) !! random_transaction_id (drawn w) = None ->
  exists w1 t k,
    send_data data addr w = AwaitRun w1 t k
    /\ t_request t = authenticated (bind_recorded addr w) (bind_request addr w)
    /\ self w1 = set_transactions
                   (<[random_transaction_id (drawn w) := t]> (transactions (self w)))
                   (bind_recorded addr w)
    /\ trace w1 = trace w ++ [transaction_run t]
    /\ (forall r w', is_Some (transactions (self w') !! random_transaction_id (drawn w)) ->
          let w2 := upd (fun c => set_transactions
                                    (base.delete (random_transaction_id (drawn w))
                                                 (transactions c)) c) w' in
          k r w' =
          match r with
          | Return _ =>
              match pack_HH (channel_number (self w)) (len data) with
              | Return header =>
                  let '(w3, r3) := _send (header ++ data) w2 in Done w3 r3
              | Raise e => Done w2 (Raise e)
              end
          | Raise e => Done w2 (Raise e)
          end).
Proof.
  intros Hb Hfresh.
  unfold send_data, bind, gets. simpl. rewrite Hb. simpl.
  unfold_coro. simpl. unfold request. simpl.
  rewrite authenticated_transaction_id. simpl.
  rewrite bool_decide_eq_false_2 by (rewrite Hfresh; apply is_Some_None). simpl.
  eexists _, _, _. split; [reflexivity|].
  split; [reflexivity|]. split; [reflexivity|]. split; [reflexivity|].
  intros r w' [t Ht]. simpl. rewrite Ht.
  destruct r as [[m a]|e]; simpl; [|reflexivity].
  unfold of_result, lift.
  destruct (pack_HH _ _); simpl; [|reflexivity].
  reflexivity.
Qed.

Lemma authenticated_fields c req :
  message_method (authenticated c req) = message_method req
  /\ message_class (authenticated c req) = message_class req
  /\ LIFETIME (attributes (authenticated c req)) = LIFETIME (attributes req)
  /\ REQUESTED_TRANSPORT (attributes (authenticated c req))
     = REQUESTED_TRANSPORT (attributes req)
  /\ CHANNEL_NUMBER (attributes (authenticated c req)) = CHANNEL_NUMBER (attributes req)
  /\ XOR_PEER_ADDRESS (attributes (authenticated c req))
     = XOR_PEER_ADDRESS (attributes req).
Proof.
  unfold authenticated. destruct (integrity_key c) as [[|x key]|]; simpl; done.
Qed.

Lemma bind_recorded_lookup addr w :
  peer_to_channel (bind_recorded addr w) !! addr = Some (channel_number (self w))
  /\ channel_to_peer (bind_recorded addr w) !! channel_number (self w) = Some addr
  /\ channel_number (bind_recorded addr w) = channel_number (self w) + 1.
Proof. unfold bind_recorded. simpl. now rewrite !lookup_insert_eq. Qed.

(** What the first [send_data] to an unbound peer leaves behind once it is
    over, whatever the await delivered. *)
Lemma send_data_unbound_end data addr w r :
  peer_to_channel (self w) !! addr = None ->
  transactions (self w) !! random_transaction_id (drawn w) = None ->
  exists w1 t k w2 res,
    send_data data addr w = AwaitRun w1 t k
    /\ k r w1 = Done w2 res
    /\ self w2 = set_transactions (transactions (self w)) (bind_recorded addr w)
    /\ (forall e, r = Raise e -> res = Raise e /\ trace w2 = trace w1).
Proof.
  intros Hb Hfresh.
  destruct (send_data_unbound data addr w Hb Hfresh) as (w1 & t & k & Hs & Ht & Hw1 & Htr & Hk).
  specialize (Hk r w1).
  assert (Hreg : is_Some (transactions (self w1) !! random_transaction_id (drawn w)))
    by (rewrite Hw1; simpl; rewrite lookup_insert_eq; eauto).
  specialize (Hk Hreg). cbv zeta in Hk.
  assert (Hself : forall w', self w' = self (upd (fun c => set_transactions
              (base.delete (random_transaction_id (drawn w)) (transactions c)) c) w1) ->
            self w' = set_transactions (transactions (self w)) (bind_recorded addr w)).
  { intros w' ->. unfold upd. simpl. rewrite Hw1. simpl.
    now rewrite delete_insert_id by done. }
  exists w1, t, k.
  destruct r as [v|e].
  - destruct (pack_HH (channel_number (self w)) (len data)) as [header|e'].
    + unfold _send in Hk.
      destruct (transport _); eexists _, _;
        (split; [exact Hs|]); (split; [exact Hk|]); (split; [|by intros ? [=]]);
        now apply Hself.
    + eexists _, _. split; [exact Hs|]. split; [exact Hk|]. split; [|by intros ? [=]].
      now apply Hself.
  - eexists _, _. split; [exact Hs|]. split; [exact Hk|]. split.
    + now apply Hself.
    + intros ? [= <-]. done.
Qed.

(** C6. Two sends to the same, so far unbound, peer run exactly one
    CHANNEL-BIND transaction: the first send records the channel in both
    tables and then awaits the bind of that channel and peer, and once the
    await is over it runs no further transaction; the second send, issued
    while the first is still waiting or after it is over, whatever the bind
    delivered, finds the channel of the first and does nothing but write the
    ChannelData frame to the transport. *)
Theorem send_data_binds_once (data1 data2 : bytes) (addr : address) (w : world) :
  peer_to_channel (self w) !! addr = None ->
  transactions (self w) !! random_transaction_id (drawn w) = None ->
  let channel := channel_number (self w) in
  exists w1 t k,
    send_data data1 addr w = AwaitRun w1 t k
    /\ message_method (t_request t) = CHANNEL_BIND
    /\ message_class (t_request t) = REQUEST
    /\ CHANNEL_NUMBER (attributes (t_request t)) = Some channel
    /\ XOR_PEER_ADDRESS (attributes (t_request t)) = Some addr
    /\ trace w1 = trace w ++ [transaction_run t]
    /\ peer_to_channel (self w1) !! addr = Some channel
    /\ channel_to_peer (self w1) !! channel = Some addr
    /\ sends_on_channel data2 addr channel w1
    /\ forall r, exists w2 res,
         k r w1 = Done w2 res
         /\ peer_to_channel (self w2) !! addr = Some channel
         /\ channel_to_peer (self w2) !! channel = Some addr
         /\ sends_on_channel data2 addr channel w2.
Proof.
  intros Hb Hfresh channel.
  destruct (send_data_unbound data1 addr w Hb Hfresh) as (w1 & t & k & Hs & Ht & Hw1 & Htr & Hk).
  pose proof (authenticated_fields (bind_recorded addr w) (bind_request addr w))
    as (Hm & Hc & _ & _ & Hcn & Hpa).
  pose proof (bind_recorded_lookup addr w) as (Hp2c & Hc2p & _).
  exists w1, t, k. rewrite Ht, Hm, Hc, Hcn, Hpa.
  do 6 (split; [done|]).
  assert (Hp1 : peer_to_channel (self w1) !! addr = Some channel) by now rewrite Hw1.
  split; [done|]. split; [now rewrite Hw1|].
  split; [now apply send_data_bound|].
  intros r.
  destruct (send_data_unbound_end data1 addr w r Hb Hfresh)
    as (w1' & t' & k' & w2 & res & Hs' & Hk' & Hw2 & _).
  rewrite Hs in Hs'. injection Hs' as <- <- <-.
  exists w2, res. split; [done|].
  assert (Hp2 : peer_to_channel (self w2) !! addr = Some channel) by now rewrite Hw2.
  split; [done|]. split; [now rewrite Hw2|]. now apply send_data_bound.
Qed.

(** C10. When the first [send_data] to a peer ends with an exception thrown
    by the CHANNEL-BIND transaction, nothing is rolled back: the channel stays
    in both tables and the counter stays incremented, so the next [send_data]
    to that peer runs no transaction and writes its ChannelData frame on the
    channel recorded before. *)
Theorem failed_bind_not_rolled_back
    (data1 data2 : bytes) (addr : address) (w : world) (e : exn) :
  peer_to_channel (self w) !! addr = None ->
  transactions (self w) !! random_transaction_id (drawn w) = None ->
  let channel := channel_number (self w) in
  exists w2,
    run_script (send_data data1 addr w) [ResumeRun (Raise e)] = Done w2 (Raise e)
    /\ peer_to_channel (self w2) !! addr = Some channel
    /\ channel_to_peer (self w2) !! channel = Some addr
    /\ channel_number (self w2) = channel + 1
    /\ sends_on_channel data2 addr channel w2.
Proof.
  intros Hb Hfresh channel.
  destruct (send_data_unbound_end data1 addr w (Raise e) Hb Hfresh)
    as (w1 & t & k & w2 & res & Hs & Hk & Hw2 & He).
  destruct (He e eq_refl) as [-> _].
  pose proof (bind_recorded_lookup addr w) as (Hp2c & Hc2p & Hn).
  exists w2. rewrite Hs. simpl. rewrite run_script_nil. split; [done|].
  assert (Hp2 : peer_to_channel (self w2) !! addr = Some channel) by now rewrite Hw2.
  split; [done|]. split; [now rewrite Hw2|]. split; [now rewrite Hw2|].
  now apply send_data_bound.
Qed.

(** ** Properties of [connect] *)

(** The ALLOCATE request that [connect] builds. *)
Definition allocate_request (w : world) : Message :=
  let a := set_LIFETIME (Some (lifetime (self w))) no_attributes in
  let a := set_REQUESTED_TRANSPORT (Some UDP_TRANSPORT) a in
  mkMessage ALLOCATE REQUEST (random_transaction_id (drawn w)) a.

(** The two halves of [connect] after its first await: the handler of
    [TransactionFailed], and what follows the [try] statement. *)
Definition challenged (request2 response : Message) : coro Message :=
  let* error_code := item "ERROR-CODE" (ERROR_CODE (attributes response)) in
  if fst error_code =? 401 then
    let* n := item "NONCE" (NONCE (attributes response)) in
    let* _ := modify (set_nonce (Some n)) in
    let* r := item "REALM" (REALM (attributes response)) in
    let* _ := modify (set_realm (Some r)) in
    let* c := gets id in
    let* key := of_result (make_integrity_key (username c) r (password c)) in
    let* _ := modify (set_integrity_key (Some key)) in
    let* tid := draw_transaction_id in
    let request3 := set_transaction_id tid request2 in
    let* r := request request3 in
    ret (fst r)
  else ret response.

Definition allocated (response : Message) : coro address :=
  let* relayed := item "XOR-RELAYED-ADDRESS" (XOR_RELAYED_ADDRESS (attributes response)) in
  let* _ := modify (set_relayed_address (Some relayed)) in
  let* handle := ensure_future_refresh_ in
  let* _ := modify (set_refresh_handle (Some handle)) in
  ret relayed.

Definition release (tid : bytes) (w : world) : world :=
  upd (fun c => set_transactions (base.delete tid (transactions c)) c) w.

Lemma connect_start w :
  transactions (self w) !! random_transaction_id (drawn w) = None ->
  exists w1 t k,
    connect w = AwaitRun w1 t k
    /\ t_request t = authenticated (self w) (allocate_request w)
    /\ self w1 = set_transactions
                   (<[random_transaction_id (drawn w) := t]> (transactions (self w)))
                   (self w)
    /\ drawn w1 = S (drawn w) /\ futures w1 = futures w
    /\ trace w1 = trace w ++ [transaction_run t]
    /\ (forall r w',
          is_Some (transactions (self w') !! random_transaction_id (drawn w)) ->
          let w2 := release (random_transaction_id (drawn w)) w' in
          k r w' =
          match r with
          | Return (response, _) => allocated response w2
          | Raise (TransactionFailed response) =>
              bind_step
                (challenged (authenticated (self w) (allocate_request w)) response w2)
                allocated
          | Raise e => Done w2 (Raise e)
          end).
Proof.
  intros Hfresh. unfold connect. unfold_coro. simpl. unfold request. simpl.
  rewrite bool_decide_eq_false_2 by (rewrite Hfresh; apply is_Some_None). simpl.
  eexists _, _, _. split; [reflexivity|]. simpl.
  rewrite authenticated_transaction_id. do 5 (split; [done|]).
  intros r w' [t Ht]. simpl. rewrite Ht.
  destruct r as [[response a]|e]; [reflexivity|].
  destruct e; reflexivity.
Qed.




Lemma release_registered tid t w w1 :
  transactions (self w) !! tid = None ->
  self w1 = set_transactions (<[tid := t]> (transactions (self w))) (self w) ->
  self (release tid w1) = self w.
Proof.
  intros Hfresh Hw1. unfold release, upd. simpl. rewrite Hw1. simpl.
  rewrite delete_insert_id by done. now destruct (self w).
Qed.




(** ** Properties of [delete] *)

(** The REFRESH request with LIFETIME 0 that [delete] builds. *)
Definition teardown_request (w : world) : Message :=
  mkMessage REFRESH REQUEST (random_transaction_id (drawn w))
            (set_LIFETIME (Some 0) no_attributes).

Definition is_teardown (m : Message) : bool :=
  bool_decide (message_method m = REFRESH)
  && bool_decide (message_class m = REQUEST)
  && bool_decide (LIFETIME (attributes m) = Some 0).

Lemma authenticated_teardown c w : is_teardown (authenticated c (teardown_request w)) = true.
Proof.
  unfold is_teardown.
  pose proof (authenticated_fields c (teardown_request w)) as (-> & -> & -> & _).
  reflexivity.
Qed.

Lemma delete_start w :
  transactions (self w) !! random_transaction_id (drawn w) = None ->
  exists w1 t k,
    delete w = AwaitRun w1 t k
    /\ is_teardown (t_request t) = true
    /\ self w1 = set_transactions
                   (<[random_transaction_id (drawn w) := t]> (transactions (self w)))
                   (set_refresh_handle None (self w))
    /\ drawn w1 = S (drawn w)
    /\ trace w1 = trace w
                  ++ match refresh_handle (self w) with
                     | Some handle => [future_cancel handle]
                     | None => []
                     end
                  ++ [transaction_run t]
    /\ (forall r w',
          is_Some (transactions (self w') !! random_transaction_id (drawn w)) ->
          let w2 := release (random_transaction_id (drawn w)) w' in
          k r w' =
          match r with
          | Return _ =>
              if truthy (receiver (self w')) then
                Done (emit receiver_connection_lost w2) (Return tt)
              else Done w2 (Return tt)
          | Raise e => Done w2 (Raise e)
          end).
Proof.
  intros Hfresh. unfold delete. unfold_coro. simpl.
  destruct (refresh_handle (self w)) as [handle|] eqn:Hh; simpl;
    (rewrite request_start by (simpl; exact Hfresh)); simpl;
    eexists _, _, _; (split; [reflexivity|]); simpl;
    (split; [apply authenticated_teardown|]).
  - split; [done|]. split; [done|]. split; [now rewrite <- app_assoc|].
    intros r w' [t Ht]. rewrite Ht. destruct r as [v|e]; simpl; [|done].
    now destruct (receiver (self w')).
  - split; [destruct (self w); simpl in *; subst; reflexivity|].
    split; [done|]. split; [done|].
    intros r w' [t Ht]. rewrite Ht. destruct r as [v|e]; simpl; [|done].
    now destruct (receiver (self w')).
Qed.

(** C2 (amended). The first [delete] cancels the refresh activity, then runs
    the teardown REFRESH (LIFETIME 0), and once that has succeeded tells the
    receiver, when there is one, that the connection is lost.  A second
    [delete] after it cancels nothing (the handle is already cleared), but
    it runs a second teardown REFRESH, and raises when that one fails. *)
Theorem delete_twice
    (w : world) (h : nat) (v1 : Message * option address)
    (r2 : result (Message * option address)) :
  refresh_handle (self w) = Some h ->
  transactions (self w) !! random_transaction_id (drawn w) = None ->
  transactions (self w) !! random_transaction_id (S (drawn w)) = None ->
  exists w1 t1 k1 w2 w3 t2 k2 w4,
    delete w = AwaitRun w1 t1 k1
    /\ trace w1 = trace w ++ [future_cancel h; transaction_run t1]
    /\ refresh_handle (self w1) = None
    /\ is_teardown (t_request t1) = true
    /\ k1 (Return v1) w1 = Done w2 (Return tt)
    /\ trace w2 = trace w1
                  ++ (if truthy (receiver (self w)) then [receiver_connection_lost] else [])
    /\ delete w2 = AwaitRun w3 t2 k2
    /\ trace w3 = trace w2 ++ [transaction_run t2]
    /\ is_teardown (t_request t2) = true
    /\ k2 r2 w3 = Done w4 match r2 with Return _ => Return tt | Raise e => Raise e end.
Proof.
  intros Hh Hf0 Hf1.
  destruct (delete_start w Hf0) as (w1 & t1 & k1 & Hdel & Htd1 & Hw1 & Hd1 & Htr1 & Hk1).
  rewrite Hh in Htr1.
  assert (Hreg : is_Some (transactions (self w1) !! random_transaction_id (drawn w)))
    by (rewrite Hw1; simpl; rewrite lookup_insert_eq; eauto).
  specialize (Hk1 (Return v1) w1 Hreg). cbv zeta in Hk1.
  assert (Hrel : self (release (random_transaction_id (drawn w)) w1)
                 = set_refresh_handle None (self w)).
  { unfold release, upd. simpl. rewrite Hw1. simpl.
    now rewrite delete_insert_id by done. }
  set (w2 := if truthy (receiver (self w1))
             then emit receiver_connection_lost (release (random_transaction_id (drawn w)) w1)
             else release (random_transaction_id (drawn w)) w1).
  assert (Hk1' : k1 (Return v1) w1 = Done w2 (Return tt))
    by (rewrite Hk1; subst w2; now destruct (truthy _)).
  assert (Hw2 : self w2 = set_refresh_handle None (self w)
                /\ drawn w2 = S (drawn w)
                /\ trace w2 = trace w1
                     ++ (if truthy (receiver (self w)) then [receiver_connection_lost] else [])).
  { subst w2. rewrite Hw1. simpl. destruct (truthy (receiver (self w)));
      simpl; rewrite ?Hrel, ?app_nil_r; done. }
  destruct Hw2 as (Hs2 & Hd2 & Htr2).
  assert (Hf2 : transactions (self w2) !! random_transaction_id (drawn w2) = None)
    by (rewrite Hs2, Hd2; exact Hf1).
  destruct (delete_start w2 Hf2) as (w3 & t2 & k2 & Hdel2 & Htd2 & Hw3 & Hd3 & Htr3 & Hk2).
  rewrite Hs2 in Htr3. simpl in Htr3.
  assert (Hreg2 : is_Some (transactions (self w3) !! random_transaction_id (drawn w2)))
    by (rewrite Hw3; simpl; rewrite lookup_insert_eq; eauto).
  specialize (Hk2 r2 w3 Hreg2). cbv zeta in Hk2.
  exists w1, t1, k1, w2, w3, t2, k2,
    (match r2 with
     | Return _ =>
         if truthy (receiver (self w3))
         then emit receiver_connection_lost (release (random_transaction_id (drawn w2)) w3)
         else release (random_transaction_id (drawn w2)) w3
     | Raise _ => release (random_transaction_id (drawn w2)) w3
     end).
  split; [done|]. split; [done|]. split; [now rewrite Hw1|]. split; [done|].
  split; [done|]. split; [done|]. split; [done|]. split; [done|]. split; [done|].
  rewrite Hk2. destruct r2 as [v|e]; [|reflexivity].
  now destruct (truthy (receiver (self w3))).
Qed.

(** ** Properties of [data_received] *)

Lemma data_received_loop_step w :
  data_received_loop w =
  match loop_iteration w with
  | Break => (w, Return tt)
  | Continue w' => data_received_loop w'
  | Raised w' e => (w', Raise e)
  end.
Proof.
  rewrite data_received_loop_equation_1.
  remember (inspect (loop_iteration w)) as i eqn:Hi. clear Hi.
  destruct i as [y H].
  transitivity (match y with
                | Break => (w, Return tt)
                | Continue w' => data_received_loop w'
                | Raised w' e => (w', Raise e)
                end); [|now rewrite H].
  destruct y; reflexivity.
Qed.

(** The frame length that the first four bytes declare: 4 + length for
    ChannelData (top two bits of the first byte 01), 20 + length for a STUN
    message, where length is the big-endian 16-bit field at offset 2. *)
Definition declared_length (buf : bytes) : option Z :=
  match buf with
  | b0 :: _ :: b2 :: b3 :: _ =>
      let length := 256 * byte_to_Z b2 + byte_to_Z b3 in
      Some (if negb (Z.testbit (byte_to_Z b0) 7) && Z.testbit (byte_to_Z b0) 6
            then 4 + length else 20 + length)
  | _ => None
  end.

(** A whole frame, and bytes that are not yet one. *)
Definition complete_frame (f : bytes) : Prop := declared_length f = Some (len f).

Definition incomplete (rest : bytes) : Prop :=
  match declared_length rest with
  | Some n => len rest < n
  | None => True
  end.

(** [frames] handed to [datagram_received] one after the other. *)
Fixpoint dispatch (frames : list bytes) (addr : option address) (w : world) : world :=
  match frames with
  | [] => w
  | f :: rest => dispatch rest addr (datagram_received f addr w).1
  end.

(** [data_received] called on each chunk in turn. *)
Fixpoint feed (chunks : list bytes) (w : world) : world * result unit :=
  match chunks with
  | [] => (w, Return tt)
  | c :: rest =>
      match data_received c w with
      | (w', Return _) => feed rest w'
      | (w', Raise e) => (w', Raise e)
      end
  end.

Definition without_buffer (w : world) : world := upd (set_buffer None) w.

Lemma is_channel_data_testbit b0 rest :
  is_channel_data (b0 :: rest)
  = Return (negb (Z.testbit (byte_to_Z b0) 7) && Z.testbit (byte_to_Z b0) 6).
Proof. unfold is_channel_data. f_equal. destruct b0; reflexivity. Qed.

Lemma declared_length_app f more n :
  declared_length f = Some n -> declared_length (f ++ more) = Some n.
Proof. destruct f as [|b0 [|b1 [|b2 [|b3 r]]]]; simpl; done. Qed.

Lemma declared_length_ge f n : declared_length f = Some n -> 4 <= n /\ 4 <= len f.
Proof.
  destruct f as [|b0 [|b1 [|b2 [|b3 r]]]]; simpl; try done.
  intros [= <-]. rewrite !len_cons.
  pose proof (byte_to_Z_range b2). pose proof (byte_to_Z_range b3).
  pose proof (len_nonneg r). destruct (_ && _); lia.
Qed.

Lemma upd_set_buffer_id w buf :
  buffer (self w) = Some buf -> upd (set_buffer (Some buf)) w = w.
Proof. destruct w as [[] ? ? ?]. simpl. now intros ->. Qed.

Lemma upd_set_buffer_twice x y w :
  upd (set_buffer x) (upd (set_buffer y) w) = upd (set_buffer x) w.
Proof. reflexivity. Qed.

Lemma datagram_received_set_buffer f addr x w :
  datagram_received f addr (upd (set_buffer x) w)
  = (upd (set_buffer x) (datagram_received f addr w).1, (datagram_received f addr w).2).
Proof.
  unfold datagram_received. simpl.
  destruct (if 4 <=? len f then is_channel_data f else Return false) as [[|]|]; [| |done].
  - destruct (unpack_HH _) as [[channel length]|]; [|done].
    destruct (_ && _); [|done]. now destruct (_ !! _).
  - destruct (parse_message f) as [m|]; [|done].
    destruct (_ && _); [|done]. now destruct (_ !! _).
Qed.

Lemma dispatch_set_buffer frames addr x w :
  dispatch frames addr (upd (set_buffer x) w) = upd (set_buffer x) (dispatch frames addr w).
Proof.
  revert w. induction frames as [|f frames IH]; intros w; simpl; [done|].
  rewrite datagram_received_set_buffer. simpl. apply IH.
Qed.

Lemma dispatch_app frames1 frames2 addr w :
  dispatch (frames1 ++ frames2) addr w = dispatch frames2 addr (dispatch frames1 addr w).
Proof. revert w. induction frames1; intros w; simpl; auto. Qed.

Lemma dispatch_self frames addr w : self (dispatch frames addr w) = self w.
Proof.
  revert w. induction frames as [|f frames IH]; intros w; simpl; [done|].
  rewrite IH. apply datagram_received_self.
Qed.

Lemma loop_iteration_incomplete w rest :
  buffer (self w) = Some rest -> incomplete rest -> loop_iteration w = Break.
Proof.
  intros Hbuf Hinc. unfold loop_iteration. rewrite Hbuf.
  destruct (4 <=? len rest) eqn:H4; [|done].
  destruct rest as [|b0 [|b1 [|b2 [|b3 r]]]]; try (vm_compute in H4; discriminate).
  rewrite slice_header, is_channel_data_testbit. simpl unpack_HH. cbv iota beta.
  unfold incomplete in Hinc. simpl in Hinc.
  destruct (_ && _); now rewrite (proj2 (Z.ltb_lt _ _) Hinc).
Qed.

Lemma loop_iteration_frame w tr f more :
  transport (self w) = Some tr ->
  buffer (self w) = Some (f ++ more) ->
  complete_frame f ->
  loop_iteration w
  = Continue (upd (set_buffer (Some more)) (datagram_received f (peername tr) w).1).
Proof.
  intros Htr Hbuf Hc. unfold loop_iteration. rewrite Hbuf.
  pose proof (declared_length_ge _ _ Hc) as [_ H4].
  assert (Hlen : len (f ++ more) = len f + len more)
    by (unfold len; rewrite length_app; lia).
  pose proof (len_nonneg more) as Hmore.
  rewrite (proj2 (Z.leb_le 4 (len (f ++ more)))) by lia.
  unfold complete_frame in Hc.
  destruct f as [|b0 [|b1 [|b2 [|b3 r]]]]; try discriminate.
  cbn [app].
  rewrite slice_header, is_channel_data_testbit. simpl unpack_HH. cbv iota beta.
  simpl in Hc. injection Hc as Hc.
  replace (if negb (Z.testbit (byte_to_Z b0) 7) && Z.testbit (byte_to_Z b0) 6
           then 4 + (256 * byte_to_Z b2 + byte_to_Z b3)
           else 20 + (256 * byte_to_Z b2 + byte_to_Z b3))
    with (len (b0 :: b1 :: b2 :: b3 :: r))
    by (rewrite <- Hc; now destruct (_ && _)).
  change (b0 :: b1 :: b2 :: b3 :: r ++ more) with ((b0 :: b1 :: b2 :: b3 :: r) ++ more).
  clear Hc. remember (b0 :: b1 :: b2 :: b3 :: r) as f eqn:Ef. clear Ef.
  rewrite (proj2 (Z.ltb_ge _ _)) by lia.
  rewrite Htr.
  assert (Hslice : slice (f ++ more) 0 (len f) = f).
  { unfold slice, len. rewrite Z.sub_0_r, Nat2Z.id. simpl drop. apply take_app_length. }
  rewrite Hslice.
  pose proof (datagram_received_returns f (peername tr) w) as Hret.
  pose proof (datagram_received_self f (peername tr) w) as (Hs & _).
  destruct (datagram_received f (peername tr) w) as [w1 res]. simpl in *. subst res.
  rewrite Hs, Hbuf. unfold slice_from, len. now rewrite Nat2Z.id, drop_app_length.
Qed.

Lemma loop_dispatches frames rest w tr :
  transport (self w) = Some tr ->
  buffer (self w) = Some (concat frames ++ rest) ->
  Forall complete_frame frames ->
  incomplete rest ->
  data_received_loop w
  = (upd (set_buffer (Some rest)) (dispatch frames (peername tr) w), Return tt).
Proof.
  revert w. induction frames as [|f frames IH]; intros w Htr Hbuf Hall Hinc.
  - rewrite data_received_loop_step, (loop_iteration_incomplete w rest) by done.
    simpl. now rewrite upd_set_buffer_id.
  - apply Forall_cons in Hall as [Hf Hall].
    simpl in Hbuf. rewrite <- app_assoc in Hbuf.
    rewrite data_received_loop_step, (loop_iteration_frame w tr f _ Htr Hbuf Hf).
    rewrite IH; try done.
    + simpl. now rewrite dispatch_set_buffer.
    + simpl. rewrite <- Htr. f_equal. apply datagram_received_self.
Qed.

Lemma data_received_loop_buffer data w :
  data_received data w
  = data_received_loop (upd (set_buffer (Some (buffered w ++ data))) w).
Proof.
  unfold data_received, buffered.
  destruct (buffer (self w)) eqn:E; cbv zeta; simpl; rewrite ?E; reflexivity.
Qed.

(** Every byte sequence splits in one way into complete frames followed by
    an incomplete rest. *)
Definition splits (bs : bytes) (frames : list bytes) (rest : bytes) : Prop :=
  bs = concat frames ++ rest /\ Forall complete_frame frames /\ incomplete rest.

Lemma splits_exists bs : exists frames rest, splits bs frames rest.
Proof.
  remember (length bs) as n eqn:Hn. revert bs Hn.
  induction n as [n IH] using lt_wf_ind. intros bs ->.
  destruct (declared_length bs) as [m|] eqn:Hd.
  - destruct (Z_lt_le_dec (len bs) m) as [Hlt|Hle].
    + exists [], bs. repeat split; [constructor|]. unfold incomplete. now rewrite Hd.
    + pose proof (declared_length_ge _ _ Hd) as [Hm _].
      assert (Hlen : len (take (Z.to_nat m) bs) = m)
        by (unfold len in *; rewrite length_take; lia).
      assert (Hf : complete_frame (take (Z.to_nat m) bs)).
      { unfold complete_frame. rewrite Hlen.
        destruct bs as [|b0 [|b1 [|b2 [|b3 r]]]]; try discriminate.
        destruct (Z.to_nat m) as [|[|[|[|k]]]] eqn:Hk; try lia. exact Hd. }
      destruct (IH (length (drop (Z.to_nat m) bs))) with (bs := drop (Z.to_nat m) bs)
        as (frames & rest & Hbs & Hall & Hinc); [rewrite length_drop; unfold len in *; lia|done|].
      exists (take (Z.to_nat m) bs :: frames), rest. repeat split.
      * simpl. rewrite <- app_assoc, <- Hbs. now rewrite take_drop.
      * now constructor.
      * done.
  - exists [], bs. repeat split; [constructor|]. unfold incomplete. now rewrite Hd.
Qed.

Lemma splits_unique bs frames rest frames' rest' :
  splits bs frames rest -> splits bs frames' rest' -> frames = frames' /\ rest = rest'.
Proof.
  revert bs frames'. induction frames as [|f frames IH]; intros bs frames' (-> & Hall & Hinc).
  - intros (Hbs & Hall' & Hinc'). simpl in Hbs.
    destruct frames' as [|f' frames']; [now simpl in Hbs|].
    exfalso. apply Forall_cons in Hall' as [Hf' _].
    simpl in Hbs. rewrite <- app_assoc in Hbs.
    unfold incomplete in Hinc. rewrite Hbs in Hinc.
    rewrite (declared_length_app _ _ _ Hf') in Hinc.
    unfold len in Hinc. rewrite length_app in Hinc. lia.
  - intros (Hbs & Hall' & Hinc'). apply Forall_cons in Hall as [Hf Hall].
    simpl in Hbs. rewrite <- app_assoc in Hbs.
    destruct frames' as [|f' frames'].
    + exfalso. simpl in Hbs. unfold incomplete in Hinc'. rewrite <- Hbs in Hinc'.
      rewrite (declared_length_app _ _ _ Hf) in Hinc'.
      unfold len in Hinc'. rewrite length_app in Hinc'. lia.
    + apply Forall_cons in Hall' as [Hf' Hall'].
      simpl in Hbs. rewrite <- app_assoc in Hbs.
      assert (Hlen : length f = length f').
      { pose proof (declared_length_app _ (concat frames ++ rest) _ Hf) as H1.
        pose proof (declared_length_app _ (concat frames' ++ rest') _ Hf') as H2.
        rewrite Hbs in H1. rewrite H1 in H2. injection H2. unfold len. lia. }
      apply app_inj_1 in Hbs as [-> Hbs]; [|done].
      destruct (IH (concat frames ++ rest) frames') as [-> ->]; [done|done|done].
Qed.

Lemma splits_app bs1 frames1 rest1 more frames2 rest2 :
  splits bs1 frames1 rest1 ->
  splits (rest1 ++ more) frames2 rest2 ->
  splits (bs1 ++ more) (frames1 ++ frames2) rest2.
Proof.
  intros (-> & Hall1 & _) (Hbs & Hall2 & Hinc). repeat split; [|now apply Forall_app|done].
  now rewrite concat_app, <- !app_assoc, Hbs.
Qed.

Lemma incomplete_nil : incomplete [].
Proof. exact I. Qed.

Lemma feed_splits chunks : forall w tr rest0 frames rest,
  transport (self w) = Some tr ->
  buffered w = rest0 ->
  incomplete rest0 ->
  splits (rest0 ++ concat chunks) frames rest ->
  exists w',
    feed chunks w = (w', Return tt)
    /\ buffered w' = rest
    /\ without_buffer w' = without_buffer (dispatch frames (peername tr) w).
Proof.
  induction chunks as [|c cs IH]; intros w tr rest0 frames rest Htr Hbuf Hinc Hsp.
  - simpl in Hsp. rewrite app_nil_r in Hsp.
    assert (H0 : splits rest0 [] rest0) by (repeat split; [constructor|done]).
    destruct (splits_unique _ _ _ _ _ Hsp H0) as [-> ->].
    exists w. done.
  - simpl feed. rewrite data_received_loop_buffer, Hbuf.
    destruct (splits_exists (rest0 ++ c)) as (frames1 & rest1 & H1).
    pose proof H1 as (Hbs1 & Hall1 & Hinc1).
    rewrite (loop_dispatches frames1 rest1 _ tr); [|done|simpl; now rewrite Hbs1|done|done].
    set (w1 := upd (set_buffer (Some rest1))
                   (dispatch frames1 (peername tr)
                             (upd (set_buffer (Some (rest0 ++ c))) w))).
    destruct (splits_exists (rest1 ++ concat cs)) as (frames2 & rest2 & H2).
    destruct (IH w1 tr rest1 frames2 rest2) as (w' & Hfeed & Hb' & Hw'); try done.
    { subst w1. simpl. rewrite dispatch_self. simpl. done. }
    pose proof (splits_app _ _ _ _ _ _ H1 H2) as H12.
    simpl in Hsp. rewrite app_assoc in Hsp.
    destruct (splits_unique _ _ _ _ _ Hsp H12) as [-> ->].
    exists w'. split; [done|]. split; [done|].
    rewrite Hw'. subst w1. rewrite !dispatch_set_buffer, dispatch_app.
    reflexivity.
Qed.

Lemma complete_frame_length f :
  complete_frame f ->
  exists b0 b1 b2 b3 payload,
    f = b0 :: b1 :: b2 :: b3 :: payload
    /\ (top_bits_01 b0 -> len f = 4 + (256 * byte_to_Z b2 + byte_to_Z b3))
    /\ (~ top_bits_01 b0 -> len f = 20 + (256 * byte_to_Z b2 + byte_to_Z b3)).
Proof.
  unfold complete_frame, top_bits_01.
  destruct f as [|b0 [|b1 [|b2 [|b3 r]]]]; try discriminate.
  cbv beta iota zeta delta [declared_length].
  intros H. apply (inj Some) in H. exists b0, b1, b2, b3, r. split; [done|].
  destruct (Z.testbit (byte_to_Z b0) 7) eqn:E7, (Z.testbit (byte_to_Z b0) 6) eqn:E6;
    cbn [negb andb] in H; split; intros Hb;
    try lia; try (destruct Hb; congruence); exfalso; apply Hb; done.
Qed.

(** C5. Bytes fed to [data_received] in chunks, however they are cut, are
    dispatched to [datagram_received] as the same frames, in the same order,
    as the same bytes fed in one piece, and the same bytes stay buffered.
    Every frame dispatched is complete: at least four bytes, of length
    4 + length when the top two bits of its first byte are 01 (ChannelData)
    and 20 + length otherwise (STUN), where length is the big-endian 16-bit
    field at offset 2.  When the bytes are the serialization of a sequence of
    complete frames, exactly these frames are dispatched and nothing stays
    buffered. *)
Theorem stream_reassembly (w : world) (tr : Transport) (chunks : list bytes) :
  transport (self w) = Some tr ->
  buffered w = [] ->
  exists frames rest w1 w2,
    concat chunks = concat frames ++ rest
    /\ feed chunks w = (w1, Return tt)
    /\ feed [concat chunks] w = (w2, Return tt)
    /\ without_buffer w1 = without_buffer (dispatch frames (peername tr) w)
    /\ without_buffer w2 = without_buffer (dispatch frames (peername tr) w)
    /\ buffered w1 = rest
    /\ buffered w2 = rest
    /\ Forall (fun f =>
                 exists b0 b1 b2 b3 payload,
                   f = b0 :: b1 :: b2 :: b3 :: payload
                   /\ (top_bits_01 b0 -> len f = 4 + (256 * byte_to_Z b2 + byte_to_Z b3))
                   /\ (~ top_bits_01 b0 -> len f = 20 + (256 * byte_to_Z b2 + byte_to_Z b3)))
              frames
    /\ (forall fs, Forall complete_frame fs -> concat chunks = concat fs ->
                   frames = fs /\ rest = []).
Proof.
  intros Htr Hbuf.
  destruct (splits_exists (concat chunks)) as (frames & rest & Hsp).
  destruct (feed_splits chunks w tr [] frames rest Htr Hbuf incomplete_nil Hsp)
    as (w1 & Hf1 & Hb1 & Hw1).
  destruct (feed_splits [concat chunks] w tr [] frames rest Htr Hbuf incomplete_nil)
    as (w2 & Hf2 & Hb2 & Hw2); [simpl; now rewrite app_nil_r|].
  exists frames, rest, w1, w2.
  pose proof Hsp as (Hbs & Hall & Hinc).
  do 7 (split; [done|]). split.
  - eapply Forall_impl; [exact Hall|]. intros f Hf. now apply complete_frame_length.
  - intros fs Hfs Hcat. apply (splits_unique (concat chunks)); [done|].
    repeat split; [now rewrite app_nil_r|done].
Qed.

(** ** The client among the tasks of the event loop

    What the event loop, the layer above and the transport can do with a
    client: call one of its methods or callbacks, or resume one of its
    suspended coroutines with the outcome of the await (a cancellation is
    the outcome [Raise CancelledError]).  [RefreshBody] is one turn of the
    refresh task, which the loop of [refresh] runs again after each return;
    [SetReceiver] is the assignment made by [TurnTransport.__init__]. *)
Inductive operation :=
| Connect
| Delete
| RefreshBody
| Request (m : Message)
| ChannelBind (channel : Z) (addr : address)
| SendData (data : bytes) (addr : address)
| SendStun (m : Message) (addr : address)
| DatagramReceived (data : bytes) (addr : option address)
| DataReceived (data : bytes)
| ConnectionMade (tr : Transport)
| SetReceiver (r : option nat).

Fixpoint forget {A} (s : step A) : step unit :=
  match s with
  | Done w (Return _) => Done w (Return tt)
  | Done w (Raise e) => Done w (Raise e)
  | AwaitRun w t k => AwaitRun w t (fun r w' => forget (k r w'))
  | AwaitSleep w l k => AwaitSleep w l (fun r w' => forget (k r w'))
  end.

Definition start (c : operation) (w : world) : step unit :=
  match c with
  | Connect => forget (connect w)
  | Delete => delete w
  | RefreshBody => refresh_body w
  | Request m => forget (request m w)
  | ChannelBind channel addr => channel_bind channel addr w
  | SendData data addr => send_data data addr w
  | SendStun m addr => lift (send_stun m addr) w
  | DatagramReceived data addr => lift (datagram_received data addr) w
  | DataReceived data => lift (data_received data) w
  | ConnectionMade tr => lift (connection_made tr) w
  | SetReceiver r => modify (set_receiver r) w
  end.

Inductive suspended :=
| OnRun (k : result (Message * option address) -> world -> step unit)
| OnSleep (k : result unit -> world -> step unit).

(** The client and its suspended coroutines. *)
Definition absorb (s : step unit) (pool : list suspended) : world * list suspended :=
  match s with
  | Done w _ => (w, pool)
  | AwaitRun w _ k => (w, pool ++ [OnRun k])
  | AwaitSleep w _ k => (w, pool ++ [OnSleep k])
  end.

Inductive sys_step : world * list suspended -> world * list suspended -> Prop :=
| step_call c w pool :
    sys_step (w, pool) (absorb (start c w) pool)
| step_resume_run i k r w pool :
    pool !! i = Some (OnRun k) ->
    sys_step (w, pool) (absorb (k r w) (base.delete i pool))
| step_resume_sleep i k r w pool :
    pool !! i = Some (OnSleep k) ->
    sys_step (w, pool) (absorb (k r w) (base.delete i pool)).

Definition reachable (c0 : TurnClient) (sys : world * list suspended) : Prop :=
  rtc sys_step (fresh c0, []) sys.

(** The binding table is a bijection, and every channel in it was issued
    by the counter. *)
Definition bijective (c : TurnClient) : Prop :=
  forall channel addr,
    channel_to_peer c !! channel = Some addr <-> peer_to_channel c !! addr = Some channel.

Definition issued_below (c : TurnClient) : Prop :=
  forall channel addr, channel_to_peer c !! channel = Some addr -> channel < channel_number c.

Definition table_ok (c : TurnClient) : Prop := bijective c /\ issued_below c.

Definition table_grows (c c' : TurnClient) : Prop :=
  channel_to_peer c ⊆ channel_to_peer c' /\ peer_to_channel c ⊆ peer_to_channel c'.

Definition keeps_table (w w' : world) : Prop :=
  table_ok (self w) -> table_ok (self w') /\ table_grows (self w) (self w').

Fixpoint safe {A} (w0 : world) (s : step A) : Prop :=
  match s with
  | Done w _ => keeps_table w0 w
  | AwaitRun w _ k => keeps_table w0 w /\ forall r w', safe w' (k r w')
  | AwaitSleep w _ k => keeps_table w0 w /\ forall r w', safe w' (k r w')
  end.

Definition safe_coro {A} (m : coro A) : Prop := forall w, safe w (m w).

Definition same_table (c c' : TurnClient) : Prop :=
  channel_to_peer c' = channel_to_peer c
  /\ peer_to_channel c' = peer_to_channel c
  /\ channel_number c' = channel_number c.

Lemma keeps_table_refl w : keeps_table w w.
Proof. intros H. split; [done|split; reflexivity]. Qed.

Lemma keeps_table_trans w1 w2 w3 :
  keeps_table w1 w2 -> keeps_table w2 w3 -> keeps_table w1 w3.
Proof.
  intros H12 H23 H1. destruct (H12 H1) as [H2 [? ?]]. destruct (H23 H2) as [H3 [? ?]].
  split; [done|split; etrans; eassumption].
Qed.

Lemma same_table_keeps w w' : same_table (self w) (self w') -> keeps_table w w'.
Proof.
  intros (H1 & H2 & H3). unfold keeps_table, table_grows, table_ok, bijective, issued_below.
  rewrite H1, H2, H3. intros H. split; [done|split; reflexivity].
Qed.

Lemma safe_weaken {A} w0 w1 (s : step A) : keeps_table w0 w1 -> safe w1 s -> safe w0 s.
Proof.
  intros H01. destruct s as [w r|w t k|w l k]; simpl.
  - now apply keeps_table_trans.
  - intros [? ?]. split; [now apply keeps_table_trans with w1|done].
  - intros [? ?]. split; [now apply keeps_table_trans with w1|done].
Qed.

Lemma safe_bind_step {A B} w0 (s : step A) (f : A -> coro B) :
  safe w0 s -> (forall a, safe_coro (f a)) -> safe w0 (bind_step s f).
Proof.
  intros Hs Hf. revert w0 Hs.
  induction s as [w [a|e]|w t k IH|w l k IH]; intros w0 Hs; simpl in *.
  - eapply safe_weaken; [exact Hs|apply Hf].
  - done.
  - destruct Hs as [? Hk]. split; [done|]. intros r w'. apply IH, Hk.
  - destruct Hs as [? Hk]. split; [done|]. intros r w'. apply IH, Hk.
Qed.

Lemma safe_catch_step {A} w0 (s : step A) (h : exn -> option (coro A)) :
  safe w0 s -> (forall e handler, h e = Some handler -> safe_coro handler) ->
  safe w0 (catch_step s h).
Proof.
  intros Hs Hh. revert w0 Hs.
  induction s as [w [a|e]|w t k IH|w l k IH]; intros w0 Hs; simpl in *.
  - done.
  - destruct (h e) as [handler|] eqn:He; [|done].
    eapply safe_weaken; [exact Hs|now apply (Hh e)].
  - destruct Hs as [? Hk]. split; [done|]. intros r w'. apply IH, Hk.
  - destruct Hs as [? Hk]. split; [done|]. intros r w'. apply IH, Hk.
Qed.

Lemma safe_forget {A} w0 (s : step A) : safe w0 s -> safe w0 (forget s).
Proof.
  revert w0. induction s as [w [a|e]|w t k IH|w l k IH]; intros w0 Hs; simpl in *; try done.
  - destruct Hs as [? Hk]. split; [done|]. intros r w'. apply IH, Hk.
  - destruct Hs as [? Hk]. split; [done|]. intros r w'. apply IH, Hk.
Qed.

Lemma same_table_refl c : same_table c c.
Proof. repeat split. Qed.

Ltac same_table_tac := unfold same_table; simpl; repeat split; reflexivity.

Lemma safe_done {A} w w' (r : result A) :
  same_table (self w) (self w') -> safe w (Done w' r).
Proof. apply same_table_keeps. Qed.

Lemma safe_ret {A} (a : A) : safe_coro (ret a).
Proof. intros w. apply keeps_table_refl. Qed.

Lemma safe_raise {A} e : safe_coro (@raise A e).
Proof. intros w. apply keeps_table_refl. Qed.

Lemma safe_gets {A} (f : TurnClient -> A) : safe_coro (gets f).
Proof. intros w. apply keeps_table_refl. Qed.

Lemma safe_of_result {A} (r : result A) : safe_coro (of_result r).
Proof. intros w. apply keeps_table_refl. Qed.

Lemma safe_item {A} key (o : option A) : safe_coro (item key o).
Proof. destruct o; [apply safe_ret|apply safe_raise]. Qed.

Lemma safe_modify f : (forall c, same_table c (f c)) -> safe_coro (modify f).
Proof. intros Hf w. apply safe_done, Hf. Qed.

Lemma safe_call e : safe_coro (call e).
Proof. intros w. apply safe_done, same_table_refl. Qed.

Lemma safe_lift {A} (f : world -> world * result A) :
  (forall w, same_table (self w) (self (f w).1)) -> safe_coro (lift f).
Proof. intros Hf w. unfold lift. specialize (Hf w). destruct (f w). now apply safe_done. Qed.

Lemma safe_bind {A B} (m : coro A) (f : A -> coro B) :
  safe_coro m -> (forall a, safe_coro (f a)) -> safe_coro (bind m f).
Proof. intros Hm Hf w. apply safe_bind_step; [apply Hm|exact Hf]. Qed.

Lemma safe_try_except {A} (m : coro A) h :
  safe_coro m -> (forall e handler, h e = Some handler -> safe_coro handler) ->
  safe_coro (try_except m h).
Proof. intros Hm Hh w. apply safe_catch_step; [apply Hm|exact Hh]. Qed.

Lemma safe_draw_transaction_id : safe_coro draw_transaction_id.
Proof. intros w. apply safe_done, same_table_refl. Qed.

Lemma safe_new_message m c : safe_coro (new_message m c).
Proof. apply safe_bind; [apply safe_draw_transaction_id|intros; apply safe_ret]. Qed.

Lemma safe_sleep l : safe_coro (sleep l).
Proof.
  intros w. simpl. split; [apply keeps_table_refl|]. intros r w'. apply keeps_table_refl.
Qed.

Lemma safe_ensure_future_refresh : safe_coro ensure_future_refresh_.
Proof. intros w. apply safe_done, same_table_refl. Qed.

Lemma safe_request req : safe_coro (request req).
Proof.
  intros w. unfold request. destruct (bool_decide _); [apply keeps_table_refl|].
  simpl. split; [apply same_table_keeps; same_table_tac|].
  intros r w'. destruct (_ !! _); [|apply keeps_table_refl].
  apply safe_done. same_table_tac.
Qed.

Create HintDb safe.
#[local] Hint Resolve safe_ret safe_raise safe_gets safe_of_result safe_item safe_call
  safe_draw_transaction_id safe_new_message safe_sleep safe_ensure_future_refresh
  safe_request same_table_refl : safe.

Ltac safe_steps :=
  repeat first
    [ apply safe_bind; [|intros ?]
    | apply safe_modify; intros ?; same_table_tac
    | solve [auto with safe]
    | match goal with
      | |- safe_coro (if ?b then _ else _) => destruct b
      | |- safe_coro (match ?o with Some _ => _ | None => _ end) => destruct o
      end ].

Lemma safe_channel_bind channel addr : safe_coro (channel_bind channel addr).
Proof. unfold channel_bind. safe_steps. Qed.

Lemma safe_connect : safe_coro connect.
Proof.
  unfold connect. safe_steps.
  apply safe_try_except; [safe_steps|].
  intros e handler He. destruct e; try discriminate.
  injection He as <-. safe_steps.
Qed.

Lemma safe_delete : safe_coro delete.
Proof. unfold delete. safe_steps. Qed.

Lemma safe_refresh_body : safe_coro refresh_body.
Proof. unfold refresh_body. safe_steps. Qed.

Lemma send_data_cases data addr w :
  send_data data addr w =
  match peer_to_channel (self w) !! addr with
  | Some channel =>
      bind (of_result (pack_HH channel (len data)))
           (fun header => lift (_send (header ++ data))) w
  | None =>
      bind (bind (channel_bind (channel_number (self w)) addr)
                 (fun _ => ret (channel_number (self w))))
           (fun channel =>
              bind (of_result (pack_HH channel (len data)))
                   (fun header => lift (_send (header ++ data))))
           (set_self (bind_recorded addr w) w)
  end.
Proof.
  unfold send_data, bind at 1, gets. simpl.
  destruct (peer_to_channel (self w) !! addr); reflexivity.
Qed.

Lemma bind_recorded_keeps addr w :
  peer_to_channel (self w) !! addr = None ->
  keeps_table w (set_self (bind_recorded addr w) w).
Proof.
  intros Hb [Hbij Hbelow]. simpl.
  assert (Hfree : channel_to_peer (self w) !! channel_number (self w) = None).
  { destruct (channel_to_peer (self w) !! channel_number (self w)) as [a|] eqn:E; [|done].
    apply Hbelow in E. lia. }
  split; [split|split].
  - intros channel a. unfold bind_recorded. simpl.
    rewrite !lookup_insert_Some. split.
    + intros [[<- <-]|[Hne Hl]]; [by left|]. right. split.
      * intros <-. apply Hbij in Hl. congruence.
      * now apply Hbij.
    + intros [[<- <-]|[Hne Hl]]; [by left|]. right. split.
      * intros <-. apply Hbij in Hl. congruence.
      * now apply Hbij.
  - intros channel a. unfold bind_recorded. simpl.
    rewrite lookup_insert_Some. intros [[<- <-]|[Hne Hl]]; [lia|].
    apply Hbelow in Hl. lia.
  - unfold bind_recorded. simpl. now apply insert_subseteq.
  - unfold bind_recorded. simpl. now apply insert_subseteq.
Qed.

Lemma _send_same_table data w : same_table (self w) (self (_send data w).1).
Proof. unfold _send. destruct (transport (self w)); same_table_tac. Qed.

Lemma safe_send_data data addr : safe_coro (send_data data addr).
Proof.
  intros w. rewrite send_data_cases.
  assert (Htail : forall channel,
             safe_coro (bind (of_result (pack_HH channel (len data)))
                             (fun header => lift (_send (header ++ data))))).
  { intros channel. apply safe_bind; [auto with safe|].
    intros header. apply safe_lift. intros w'. apply _send_same_table. }
  destruct (peer_to_channel (self w) !! addr) eqn:Hb; [apply Htail|].
  apply (safe_weaken w (set_self (bind_recorded addr w) w));
    [apply bind_recorded_keeps, Hb|].
  apply safe_bind; [|exact Htail].
  apply safe_bind; [apply safe_channel_bind|auto with safe].
Qed.

Lemma loop_iteration_same_table w :
  match loop_iteration w with
  | Break => True
  | Continue w' => same_table (self w) (self w')
  | Raised w' _ => same_table (self w) (self w')
  end.
Proof.
  unfold loop_iteration.
  destruct (buffer (self w)) as [buf|]; [|same_table_tac].
  destruct (4 <=? len buf); [|done].
  destruct (unpack_HH _) as [[x length]|]; [|same_table_tac].
  destruct (is_channel_data buf) as [cd|]; [|same_table_tac].
  destruct (len buf <? _); [done|].
  destruct (transport (self w)) as [tr|]; [|same_table_tac].
  pose proof (datagram_received_self
                (slice buf 0 (if cd then 4 + length else 20 + length)) (peername tr) w)
    as (Hs & _).
  destruct (datagram_received _ _ w) as [w1 [[]|e]]; simpl in Hs.
  - destruct (buffer (self w1)); unfold same_table; simpl; rewrite Hs; done.
  - unfold same_table. rewrite Hs. done.
Qed.

Lemma same_table_trans c1 c2 c3 : same_table c1 c2 -> same_table c2 c3 -> same_table c1 c3.
Proof. unfold same_table. intros (-> & -> & ->) (-> & -> & ->). done. Qed.

Lemma data_received_loop_same_table w :
  same_table (self w) (self (data_received_loop w).1).
Proof.
  remember (length (buffered w)) as n eqn:Hn. revert w Hn.
  induction n as [n IH] using lt_wf_ind. intros w ->.
  rewrite data_received_loop_step.
  pose proof (loop_iteration_same_table w) as Hst.
  pose proof (loop_iteration_shrinks w) as Hsh.
  destruct (loop_iteration w) as [|w'|w' e]; [apply same_table_refl| |exact Hst].
  eapply same_table_trans; [exact Hst|].
  eapply IH; [|reflexivity]. now apply Hsh.
Qed.

Lemma data_received_same_table data w :
  same_table (self w) (self (data_received data w).1).
Proof.
  rewrite data_received_loop_buffer.
  eapply same_table_trans; [|apply data_received_loop_same_table].
  same_table_tac.
Qed.

Lemma safe_start c : safe_coro (start c).
Proof.
  destruct c; simpl; intros w.
  - apply safe_forget, safe_connect.
  - apply safe_delete.
  - apply safe_refresh_body.
  - apply safe_forget, safe_request.
  - apply safe_channel_bind.
  - apply safe_send_data.
  - apply safe_lift. intros w'. apply _send_same_table.
  - apply safe_lift. intros w'. unfold same_table.
    now rewrite (proj1 (datagram_received_self data addr w')).
  - apply safe_lift. intros w'. apply data_received_same_table.
  - apply safe_lift. intros w'. same_table_tac.
  - apply safe_modify. intros c. same_table_tac.
Qed.

Definition continuation_safe (s : suspended) : Prop :=
  match s with
  | OnRun k => forall r w', safe w' (k r w')
  | OnSleep k => forall r w', safe w' (k r w')
  end.

Lemma absorb_keeps w s pool :
  table_ok (self w) ->
  Forall continuation_safe pool ->
  safe w s ->
  table_ok (self (absorb s pool).1)
  /\ table_grows (self w) (self (absorb s pool).1)
  /\ Forall continuation_safe (absorb s pool).2.
Proof.
  intros Hok Hpool Hs. destruct s as [w' r|w' t k|w' l k]; simpl in *.
  - destruct (Hs Hok). done.
  - destruct Hs as [Hk Hcont]. destruct (Hk Hok). split; [done|split; [done|]].
    apply Forall_app. split; [done|]. now repeat constructor.
  - destruct Hs as [Hk Hcont]. destruct (Hk Hok). split; [done|split; [done|]].
    apply Forall_app. split; [done|]. now repeat constructor.
Qed.

Lemma sys_step_keeps sys sys' :
  sys_step sys sys' ->
  table_ok (self sys.1) ->
  Forall continuation_safe sys.2 ->
  table_ok (self sys'.1)
  /\ table_grows (self sys.1) (self sys'.1)
  /\ Forall continuation_safe sys'.2.
Proof.
  intros Hstep. destruct Hstep as [c w pool|i k r w pool Hi|i k r w pool Hi];
    simpl; intros Hok Hpool.
  - apply absorb_keeps; [done|done|apply safe_start].
  - apply absorb_keeps; [done|now apply Forall_delete|].
    apply (Forall_lookup_1 _ _ _ _ Hpool Hi).
  - apply absorb_keeps; [done|now apply Forall_delete|].
    apply (Forall_lookup_1 _ _ _ _ Hpool Hi).
Qed.

Lemma init_table_ok server username password lifetime :
  table_ok (init server username password lifetime).
Proof.
  split.
  - intros channel addr. simpl. now rewrite !lookup_empty.
  - intros channel addr. simpl. now rewrite lookup_empty.
Qed.

Lemma reachable_keeps c0 sys :
  table_ok c0 -> reachable c0 sys ->
  table_ok (self sys.1) /\ Forall continuation_safe sys.2.
Proof.
  intros Hok Hreach.
  apply (rtc_ind_r (R := sys_step)
           (fun sys => table_ok (self sys.1) /\ Forall continuation_safe sys.2)
           (fresh c0, [])); [| |exact Hreach].
  - split; [done|constructor].
  - intros y z _ Hstep [Hok' Hpool].
    destruct (sys_step_keeps _ _ Hstep Hok' Hpool) as (? & _ & ?). done.
Qed.

(** C9. In every state that a freshly constructed client reaches, whatever
    methods and callbacks are called, in whatever order, and however the
    suspended coroutines are resumed in between, [channel_to_peer] maps a
    channel to an address exactly when [peer_to_channel] maps that address to
    that channel; and no step from such a state removes or changes an entry
    of either table. *)
Theorem binding_table_bijective
    (server : address) (username password : str) (lifetime : Z)
    (sys : world * list suspended) :
  reachable (init server username password lifetime) sys ->
  (forall channel addr,
      channel_to_peer (self sys.1) !! channel = Some addr
      <-> peer_to_channel (self sys.1) !! addr = Some channel)
  /\ (forall sys', sys_step sys sys' ->
        channel_to_peer (self sys.1) ⊆ channel_to_peer (self sys'.1)
        /\ peer_to_channel (self sys.1) ⊆ peer_to_channel (self sys'.1)).
Proof.
  intros Hreach.
  destruct (reachable_keeps _ _ (init_table_ok server username password lifetime) Hreach)
    as [Hok Hpool].
  split; [apply Hok|].
  intros sys' Hstep. now destruct (sys_step_keeps _ _ Hstep Hok Hpool) as (_ & ? & _).
Qed.

(** ** Channel numbers issued by [send_data] *)

(** [send_data] calls made one after the other; a call that awaits its
    CHANNEL-BIND is resumed with the outcome given for it. *)
Fixpoint send_all (sends : list (bytes * address * result (Message * option address)))
    (w : world) : world :=
  match sends with
  | [] => w
  | (data, addr, r) :: rest =>
      send_all rest (world_of (run_script (send_data data addr w) [ResumeRun r]))
  end.

(** The channel numbers of the CHANNEL-BIND transactions run, in order. *)
Definition issued_channel (e : event) : option Z :=
  match e with
  | transaction_run t =>
      if bool_decide (message_method (t_request t) = CHANNEL_BIND)
      then CHANNEL_NUMBER (attributes (t_request t))
      else None
  | _ => None
  end.

Definition issued (tr : list event) : list Z := omap issued_channel tr.

Lemma send_data_unbound_issue data addr w r :
  peer_to_channel (self w) !! addr = None ->
  transactions (self w) = ∅ ->
  let w2 := world_of (run_script (send_data data addr w) [ResumeRun r]) in
  self w2 = bind_recorded addr w
  /\ issued (trace w2) = issued (trace w) ++ [channel_number (self w)].
Proof.
  intros Hb Hempty.
  assert (Hfresh : transactions (self w) !! random_transaction_id (drawn w) = None)
    by (rewrite Hempty; apply lookup_empty).
  destruct (send_data_unbound data addr w Hb Hfresh)
    as (w1 & t & k & Hs & Ht & Hw1 & Htr & Hk).
  specialize (Hk r w1).
  assert (Hreg : is_Some (transactions (self w1) !! random_transaction_id (drawn w)))
    by (rewrite Hw1; simpl; rewrite lookup_insert_eq; eauto).
  specialize (Hk Hreg). cbv zeta in Hk.
  pose proof (authenticated_fields (bind_recorded addr w) (bind_request addr w))
    as (Hm & _ & _ & _ & Hcn & _).
  assert (Hi1 : issued (trace w1) = issued (trace w) ++ [channel_number (self w)]).
  { rewrite Htr. unfold issued. rewrite omap_app. simpl. now rewrite Ht, Hm, Hcn. }
  assert (Hrel : self (release (random_transaction_id (drawn w)) w1) = bind_recorded addr w).
  { unfold release, upd. simpl. rewrite Hw1. simpl.
    rewrite delete_insert_id by done. unfold bind_recorded. simpl.
    now destruct (self w). }
  cbv zeta. rewrite Hs. simpl. rewrite run_script_nil, Hk.
  destruct r as [v|e]; [|split; [exact Hrel|exact Hi1]].
  destruct (pack_HH _ _) as [header|e]; [|split; [exact Hrel|exact Hi1]].
  unfold _send. fold (release (random_transaction_id (drawn w)) w1).
  destruct (transport _); simpl; (split; [exact Hrel|]); [|exact Hi1].
  unfold issued in *. rewrite omap_app. simpl. now rewrite app_nil_r.
Qed.

Lemma send_all_issues sends : forall w,
  transactions (self w) = ∅ ->
  NoDup (map (fun s => s.1.2) sends) ->
  (forall s, s ∈ sends -> peer_to_channel (self w) !! s.1.2 = None) ->
  let w' := send_all sends w in
  transactions (self w') = ∅
  /\ issued (trace w')
     = issued (trace w)
       ++ map (fun i => channel_number (self w) + Z.of_nat i) (seq 0 (length sends))
  /\ (forall i s, sends !! i = Some s ->
        peer_to_channel (self w') !! s.1.2 = Some (channel_number (self w) + Z.of_nat i))
  /\ (forall a, a ∉ map (fun s => s.1.2) sends ->
        peer_to_channel (self w') !! a = peer_to_channel (self w) !! a).
Proof.
  induction sends as [|[[data addr] r] sends IH]; intros w Hempty Hnd Hfree.
  - simpl. rewrite app_nil_r. split; [done|split; [done|split; [|done]]].
    intros i s. now rewrite lookup_nil.
  - apply NoDup_cons in Hnd as [Hnotin Hnd]. simpl send_all.
    assert (Hb : peer_to_channel (self w) !! addr = None)
      by (apply (Hfree (data, addr, r)); left).
    pose proof (send_data_unbound_issue data addr w r Hb Hempty) as [Hself Hiss].
    set (w2 := world_of (run_script (send_data data addr w) [ResumeRun r])) in *.
    assert (Hcn : channel_number (self w2) = channel_number (self w) + 1)
      by (rewrite Hself; reflexivity).
    assert (Hp2 : forall a, a <> addr ->
                    peer_to_channel (self w2) !! a = peer_to_channel (self w) !! a).
    { intros a Hne. rewrite Hself. unfold bind_recorded. simpl.
      now rewrite lookup_insert_ne. }
    destruct (IH w2) as (He' & Hi' & Hp' & Hother).
    + rewrite Hself. exact Hempty.
    + exact Hnd.
    + intros s Hs. rewrite Hp2; [apply Hfree; now right|].
      intros Heq. apply Hnotin. rewrite <- Heq. apply list_elem_of_fmap. now exists s.
    + cbv zeta. split; [exact He'|]. split; [|split].
      * rewrite Hi', Hiss, <- app_assoc. f_equal. simpl. f_equal; [f_equal; lia|].
        rewrite <- seq_shift, map_map. apply map_ext. intros i. lia.
      * intros [|i] s Hs; simpl in Hs.
        -- injection Hs as <-. simpl. rewrite Z.add_0_r, Hother by done.
           rewrite Hself. now destruct (bind_recorded_lookup addr w).
        -- rewrite (Hp' i s Hs). f_equal. lia.
      * intros a Ha. simpl in Ha. apply not_elem_of_cons in Ha as [Hne Ha].
        rewrite Hother by done. now apply Hp2.
Qed.


(** C4 (amended). [send_data] calls to N distinct peer addresses, made on a
    newly constructed client (its transport set or not), issue N channel
    numbers: the i-th peer gets 0x4000 + i, so the numbers are distinct,
    strictly increasing in the order of issue, and start at 0x4000.  They
    lie in 0x4000-0x7FFF as long as N is at most 16384; the counter has no
    upper bound. *)
Theorem channel_numbers_issued
    (server : address) (username password : str) (lifetime : Z)
    (tr : option Transport)
    (sends : list (bytes * address * result (Message * option address))) :
  NoDup (map (fun s => s.1.2) sends) ->
  let w0 := upd (set_transport tr) (fresh (init server username password lifetime)) in
  let w' := send_all sends w0 in
  issued (trace w') = map (fun i => 0x4000 + Z.of_nat i) (seq 0 (length sends))
  /\ (forall i s, sends !! i = Some s ->
        peer_to_channel (self w') !! s.1.2 = Some (0x4000 + Z.of_nat i))
  /\ NoDup (issued (trace w'))
  /\ (forall i j ci cj, (i < j)%nat ->
        issued (trace w') !! i = Some ci -> issued (trace w') !! j = Some cj -> ci < cj)
  /\ (len sends <= 16384 ->
      Forall (fun c => 0x4000 <= c <= 0x7FFF) (issued (trace w'))).
Proof.
  intros Hnd w0 w'.
  destruct (send_all_issues sends w0) as (_ & Hiss & Hp & _); [done|done| |].
  { intros s _. apply lookup_empty. }
  fold w' in Hiss, Hp. simpl in Hiss, Hp.
  assert (Hlook : forall i c, issued (trace w') !! i = Some c ->
                    (i < length sends)%nat /\ c = 0x4000 + Z.of_nat i).
  { intros i c. rewrite Hiss, list_lookup_fmap.
    destruct (seq 0 (length sends) !! i) as [k|] eqn:Hk; [|done].
    apply lookup_seq in Hk as [-> ?]. simpl. intros [= <-]. done. }
  split; [exact Hiss|]. split; [exact Hp|]. split; [|split].
  - rewrite Hiss. apply NoDup_fmap_2; [|apply NoDup_seq].
    intros i j. lia.
  - intros i j ci cj Hij Hi Hj.
    apply Hlook in Hi as [_ ->]. apply Hlook in Hj as [_ ->]. lia.
  - intros Hn. apply Forall_lookup. intros i c Hc.
    apply Hlook in Hc as [Hi ->]. unfold len in Hn. lia.
Qed.

(** * Further properties of the module *)

(** ** [is_channel_data] and [make_integrity_key] *)

(** X1. [is_channel_data] raises [IndexError] on empty bytes; otherwise its
    answer depends on the first byte alone, and it is [True] exactly when the
    top two bits of that byte are 01, that is when the byte lies in
    0x40-0x7F. *)
Theorem is_channel_data_classifies (data : bytes) :
  match data with
  | [] => is_channel_data data = Raise IndexError
  | b0 :: rest =>
      exists c,
        is_channel_data data = Return c
        /\ (forall rest', is_channel_data (b0 :: rest') = Return c)
        /\ (c = true <-> top_bits_01 b0)
        /\ (c = true <-> 0x40 <= byte_to_Z b0 <= 0x7F)
  end.
Proof.
  destruct data as [|b0 rest]; [reflexivity|].
  exists (Z.land (byte_to_Z b0) 0xC0 =? 0x40).
  split; [reflexivity|]. split; [reflexivity|]. split.
  - rewrite <- (is_channel_data_top_bits b0 rest). unfold is_channel_data.
    split; [now intros ->|now intros [= ->]].
  - destruct b0; vm_compute; split; try discriminate; try reflexivity;
      try (intros [H1 H2]; first [now elim H1 | now elim H2]); intros _; split; discriminate.
Qed.





(** X3. The three strings are joined with colons and nothing else, so a colon
    inside a string moves the boundary: username [a:b] with realm [c] gives
    the key of username [a] with realm [b:c]. *)
Theorem make_integrity_key_colon (a c d password : str) :
  make_integrity_key (a ++ u ":" ++ c) d password
  = make_integrity_key a (c ++ u ":" ++ d) password.
Proof.
  unfold make_integrity_key.
  change (join (u ":") [a ++ u ":" ++ c; d; password])
    with ((a ++ u ":" ++ c) ++ u ":" ++ d ++ u ":" ++ password).
  change (join (u ":") [a; c ++ u ":" ++ d; password])
    with (a ++ u ":" ++ (c ++ u ":" ++ d) ++ u ":" ++ password).
  now rewrite <- !app_assoc.
Qed.

(** ** [request] and [__add_authentication] *)

(** X4. With a non-empty integrity key, the request that [request] runs carries
    USERNAME, NONCE and REALM from the client, then MESSAGE-INTEGRITY computed
    over the message with these three set, then FINGERPRINT computed over the
    message including MESSAGE-INTEGRITY; method, class, transaction id and
    the other attributes are those of the caller's request, and the
    destination is the server.  With no key, or an empty one, the request is
    run as the caller built it. *)
Theorem request_attaches_credentials (req : Message) (w : world) :
  transactions (self w) !! transaction_id req = None ->
  exists w1 t k,
    request req w = AwaitRun w1 t k
    /\ t_addr t = server (self w)
    /\ message_method (t_request t) = message_method req
    /\ message_class (t_request t) = message_class req
    /\ transaction_id (t_request t) = transaction_id req
    /\ (truthy_bytes (integrity_key (self w)) = false -> t_request t = req)
    /\ (forall key, integrity_key (self w) = Some key -> key <> [] ->
          let a := attributes (t_request t) in
          let with_names :=
            set_attributes
              (set_REALM (realm (self w))
                 (set_NONCE (nonce (self w))
                    (set_USERNAME (Some (username (self w))) (attributes req))))
              req in
          let with_integrity :=
            set_attributes
              (set_MESSAGE_INTEGRITY (Some (message_integrity with_names key))
                                     (attributes with_names))
              with_names in
          USERNAME a = Some (username (self w))
          /\ NONCE a = nonce (self w)
          /\ REALM a = realm (self w)
          /\ MESSAGE_INTEGRITY a = Some (message_integrity with_names key)
          /\ FINGERPRINT a = Some (message_fingerprint with_integrity)
          /\ LIFETIME a = LIFETIME (attributes req)
          /\ REQUESTED_TRANSPORT a = REQUESTED_TRANSPORT (attributes req)
          /\ CHANNEL_NUMBER a = CHANNEL_NUMBER (attributes req)
          /\ XOR_PEER_ADDRESS a = XOR_PEER_ADDRESS (attributes req)
          /\ XOR_RELAYED_ADDRESS a = XOR_RELAYED_ADDRESS (attributes req)
          /\ ERROR_CODE a = ERROR_CODE (attributes req)).
Proof.
  intros Hfresh. rewrite (request_start req w Hfresh). cbv zeta.
  eexists _, _, _. split; [reflexivity|]. simpl.
  split; [reflexivity|].
  pose proof (authenticated_fields (self w) req) as (Hm & Hc & _).
  split; [exact Hm|]. split; [exact Hc|].
  split; [apply authenticated_transaction_id|]. split.
  - unfold authenticated, truthy_bytes.
    destruct (integrity_key (self w)) as [[|x key]|]; done.
  - intros key Hkey Hne. unfold authenticated. rewrite Hkey.
    destruct key as [|x key]; [done|]. simpl. repeat split; reflexivity.
Qed.

(** ** [channel_bind] *)

(** X5. [channel_bind] runs one CHANNEL-BIND request carrying the channel number
    and the peer address; it returns [None] when the transaction succeeds and
    raises what the transaction raises; either way the client object is
    afterwards as it was before the call: the method records nothing in the
    binding tables. *)
Theorem channel_bind_transaction
    (channel : Z) (addr : address) (w : world)
    (r : result (Message * option address)) :
  transactions (self w) !! random_transaction_id (drawn w) = None ->
  exists w1 t k w2,
    channel_bind channel addr w = AwaitRun w1 t k
    /\ message_method (t_request t) = CHANNEL_BIND
    /\ message_class (t_request t) = REQUEST
    /\ CHANNEL_NUMBER (attributes (t_request t)) = Some channel
    /\ XOR_PEER_ADDRESS (attributes (t_request t)) = Some addr
    /\ trace w1 = trace w ++ [transaction_run t]
    /\ k r w1 = Done w2 match r with Return _ => Return tt | Raise e => Raise e end
    /\ self w2 = self w
    /\ trace w2 = trace w1.
Proof.
  intros Hfresh. unfold channel_bind. unfold_coro. simpl.
  rewrite request_start by (simpl; exact Hfresh). simpl.
  pose proof (authenticated_fields (self w)
                (mkMessage CHANNEL_BIND REQUEST (random_transaction_id (drawn w))
                   (set_XOR_PEER_ADDRESS (Some addr)
                      (set_CHANNEL_NUMBER (Some channel) no_attributes))))
    as (Hm & Hc & _ & _ & Hcn & Hpa).
  eexists _, _, _, _. split; [reflexivity|]. simpl.
  split; [exact Hm|]. split; [exact Hc|]. split; [exact Hcn|]. split; [exact Hpa|].
  split; [reflexivity|].
  rewrite lookup_insert_eq.
  split; [destruct r as [v|e]; reflexivity|]. simpl.
  rewrite delete_insert_id by exact Hfresh. split; [|reflexivity].
  now destruct (self w).
Qed.

(** ** [connect], [delete] and [refresh] *)

(** The first await of [connect], resumed in the state in which it was
    suspended. *)
Lemma connect_resumed w r :
  transactions (self w) !! random_transaction_id (drawn w) = None ->
  exists w1 t k w1',
    connect w = AwaitRun w1 t k
    /\ self w1' = self w
    /\ drawn w1' = S (drawn w)
    /\ futures w1' = futures w
    /\ trace w1' = trace w ++ [transaction_run t]
    /\ message_method (t_request t) = ALLOCATE
    /\ LIFETIME (attributes (t_request t)) = Some (lifetime (self w))
    /\ REQUESTED_TRANSPORT (attributes (t_request t)) = Some UDP_TRANSPORT
    /\ k r w1 =
       match r with
       | Return (response, _) => allocated response w1'
       | Raise (TransactionFailed response) =>
           bind_step
             (challenged (authenticated (self w) (allocate_request w)) response w1')
             allocated
       | Raise e => Done w1' (Raise e)
       end.
Proof.
  intros Hf0.
  destruct (connect_start w Hf0) as (w1 & t1 & k1 & Hc & Ht1 & Hw1 & Hd1 & Hfu1 & Htr1 & Hk1).
  assert (Hreg : is_Some (transactions (self w1) !! random_transaction_id (drawn w)))
    by (rewrite Hw1; simpl; rewrite lookup_insert_eq; eauto).
  pose proof (authenticated_fields (self w) (allocate_request w)) as (Hm & _ & Hlt & Hrt & _).
  exists w1, t1, k1, (release (random_transaction_id (drawn w)) w1).
  split; [exact Hc|]. split; [exact (release_registered _ _ _ _ Hf0 Hw1)|].
  split; [exact Hd1|]. split; [exact Hfu1|]. split; [exact Htr1|].
  rewrite Ht1. split; [exact Hm|]. split; [exact Hlt|]. split; [exact Hrt|].
  apply (Hk1 r w1 Hreg).
Qed.

(** X6. When the first ALLOCATE succeeds, [connect] returns the
    XOR-RELAYED-ADDRESS of the response, stores it as [relayed_address],
    starts one refresh task and stores its handle, without cancelling a
    refresh task started earlier; nonce, realm and integrity key are not
    touched.  When the response has no XOR-RELAYED-ADDRESS, [connect] raises
    [KeyError], starts no refresh task and leaves the client as it was. *)
Theorem connect_success (w : world) (response : Message) (a : option address) :
  transactions (self w) !! random_transaction_id (drawn w) = None ->
  exists w2 t,
    message_method (t_request t) = ALLOCATE
    /\ LIFETIME (attributes (t_request t)) = Some (lifetime (self w))
    /\ REQUESTED_TRANSPORT (attributes (t_request t)) = Some UDP_TRANSPORT
    /\ match XOR_RELAYED_ADDRESS (attributes response) with
       | Some relayed =>
           run_script (connect w) [ResumeRun (Return (response, a))]
           = Done w2 (Return relayed)
           /\ self w2 = set_refresh_handle (Some (futures w))
                          (set_relayed_address (Some relayed) (self w))
           /\ futures w2 = S (futures w)
           /\ trace w2 = trace w ++ [transaction_run t; ensure_future_refresh (futures w)]
       | None =>
           run_script (connect w) [ResumeRun (Return (response, a))]
           = Done w2 (Raise (KeyError "XOR-RELAYED-ADDRESS"))
           /\ self w2 = self w
           /\ futures w2 = futures w
           /\ trace w2 = trace w ++ [transaction_run t]
       end.
Proof.
  intros Hf0.
  destruct (connect_resumed w (Return (response, a)) Hf0)
    as (w1 & t & k & w1' & Hc & Hs & Hd & Hfu & Htr & Hm & Hlt & Hrt & Hk).
  rewrite Hc. simpl. rewrite run_script_nil, Hk.
  unfold allocated. unfold_coro. simpl.
  destruct (XOR_RELAYED_ADDRESS (attributes response)) as [relayed|]; simpl.
  - eexists _, t. do 3 (split; [done|]). split; [reflexivity|]. simpl.
    rewrite Hs, Hfu, Htr, <- app_assoc. done.
  - exists w1', t. do 3 (split; [done|]). done.
Qed.

(** X7. An exception of the first ALLOCATE that is not [TransactionFailed] (a
    timeout, a cancellation) is not caught: [connect] raises it, makes no
    second attempt, and leaves the client as it was. *)
Theorem connect_propagates_other_exceptions (w : world) (e : exn) :
  transactions (self w) !! random_transaction_id (drawn w) = None ->
  (forall response, e <> TransactionFailed response) ->
  exists w2 t,
    run_script (connect w) [ResumeRun (Raise e)] = Done w2 (Raise e)
    /\ self w2 = self w
    /\ futures w2 = futures w
    /\ trace w2 = trace w ++ [transaction_run t].
Proof.
  intros Hf0 He.
  destruct (connect_resumed w (Raise e) Hf0)
    as (w1 & t & k & w1' & Hc & Hs & Hd & Hfu & Htr & _ & _ & _ & Hk).
  rewrite Hc. simpl. rewrite run_script_nil, Hk.
  exists w1', t. destruct e; try done. now elim (He response).
Qed.

(** X8. A 401 error response that lacks an attribute: without ERROR-CODE or
    without NONCE, [connect] raises [KeyError] and the client is as before;
    with NONCE but without REALM, it raises [KeyError] after the nonce has
    been stored, so the client keeps the new nonce with its old realm and
    integrity key.  No second ALLOCATE is run in any of these cases. *)
Theorem connect_challenge_missing_attribute (w : world) (response : Message) :
  transactions (self w) !! random_transaction_id (drawn w) = None ->
  exists w2 t,
    trace w2 = trace w ++ [transaction_run t]
    /\ futures w2 = futures w
    /\ (ERROR_CODE (attributes response) = None ->
        run_script (connect w) [ResumeRun (Raise (TransactionFailed response))]
        = Done w2 (Raise (KeyError "ERROR-CODE"))
        /\ self w2 = self w)
    /\ (forall reason,
          ERROR_CODE (attributes response) = Some (401, reason) ->
          NONCE (attributes response) = None ->
          run_script (connect w) [ResumeRun (Raise (TransactionFailed response))]
          = Done w2 (Raise (KeyError "NONCE"))
          /\ self w2 = self w)
    /\ (forall reason n,
          ERROR_CODE (attributes response) = Some (401, reason) ->
          NONCE (attributes response) = Some n ->
          REALM (attributes response) = None ->
          exists w3,
            run_script (connect w) [ResumeRun (Raise (TransactionFailed response))]
            = Done w3 (Raise (KeyError "REALM"))
            /\ self w3 = set_nonce (Some n) (self w)
            /\ futures w3 = futures w
            /\ trace w3 = trace w ++ [transaction_run t]).
Proof.
  intros Hf0.
  destruct (connect_resumed w (Raise (TransactionFailed response)) Hf0)
    as (w1 & t & k & w1' & Hc & Hs & Hd & Hfu & Htr & _ & _ & _ & Hk).
  rewrite Hc. simpl. rewrite run_script_nil, Hk.
  exists w1', t. split; [done|]. split; [done|].
  unfold challenged. unfold_coro. simpl. split; [|split].
  - intros ->. done.
  - intros reason -> ->. done.
  - intros reason n -> -> ->. simpl. eexists. split; [reflexivity|]. simpl.
    rewrite Hs. done.
Qed.

(** X9. When the teardown REFRESH of [delete] raises, [delete] raises the same
    exception and the receiver is not told that the connection is lost; the
    refresh task has been cancelled and its handle cleared all the same. *)
Theorem delete_failure (w : world) (e : exn) :
  transactions (self w) !! random_transaction_id (drawn w) = None ->
  exists w2 t,
    run_script (delete w) [ResumeRun (Raise e)] = Done w2 (Raise e)
    /\ is_teardown (t_request t) = true
    /\ self w2 = set_refresh_handle None (self w)
    /\ trace w2 = trace w
                  ++ match refresh_handle (self w) with
                     | Some handle => [future_cancel handle]
                     | None => []
                     end
                  ++ [transaction_run t]
    /\ ~ In receiver_connection_lost (skipn (length (trace w)) (trace w2)).
Proof.
  intros Hf0.
  destruct (delete_start w Hf0) as (w1 & t & k & Hdel & Htd & Hw1 & Hd1 & Htr1 & Hk).
  assert (Hreg : is_Some (transactions (self w1) !! random_transaction_id (drawn w)))
    by (rewrite Hw1; simpl; rewrite lookup_insert_eq; eauto).
  specialize (Hk (Raise e) w1 Hreg). cbv zeta in Hk.
  rewrite Hdel. simpl. rewrite run_script_nil, Hk.
  eexists _, t. split; [reflexivity|]. split; [exact Htd|]. split; [|split].
  - unfold release, upd. simpl. rewrite Hw1. simpl.
    now rewrite delete_insert_id by done.
  - exact Htr1.
  - simpl. rewrite Htr1. change skipn with (@drop event). rewrite drop_app_length.
    destruct (refresh_handle (self w)); simpl; intros Hin;
      repeat (destruct Hin as [Hin|Hin]; [discriminate|]); exact Hin.
Qed.


(** ** [send_data] and the receiving side *)

Lemma byte_to_of_Z z : byte_to_Z (byte_of_Z z) = z mod 256.
Proof.
  unfold byte_to_Z, byte_of_Z.
  pose proof (Z.mod_pos_bound z 256 eq_refl) as Hm.
  destruct (Byte.of_N (Z.to_N (z mod 256))) as [x|] eqn:E.
  - apply Byte.to_of_N in E. rewrite E. lia.
  - apply Byte.of_N_None_iff in E. lia.
Qed.

Lemma pack_HH_in_range x y :
  0 <= x <= 0xFFFF -> 0 <= y <= 0xFFFF ->
  exists b0 b1 b2 b3,
    pack_HH x y = Return [b0; b1; b2; b3]
    /\ byte_to_Z b0 = x / 256 /\ byte_to_Z b1 = x mod 256
    /\ byte_to_Z b2 = y / 256 /\ byte_to_Z b3 = y mod 256.
Proof.
  intros Hx Hy. unfold pack_HH.
  rewrite (proj2 (Z.leb_le 0 x)), (proj2 (Z.leb_le x 0xFFFF)),
    (proj2 (Z.leb_le 0 y)), (proj2 (Z.leb_le y 0xFFFF)) by lia.
  eexists _, _, _, _. split; [reflexivity|].
  rewrite !byte_to_of_Z, !Z.shiftr_div_pow2 by lia.
  change (2 ^ 8) with 256.
  assert (0 <= x / 256 < 256) by (split; [apply Z.div_pos|apply Z.div_lt_upper_bound]; lia).
  assert (0 <= y / 256 < 256) by (split; [apply Z.div_pos|apply Z.div_lt_upper_bound]; lia).
  rewrite !(Z.mod_small (_ / 256)) by lia. done.
Qed.

Lemma pack_HH_out_of_range x y :
  x < 0 \/ 0xFFFF < x \/ y < 0 \/ 0xFFFF < y -> pack_HH x y = Raise StructError.
Proof.
  intros H. unfold pack_HH.
  destruct (Z.leb_spec 0 x), (Z.leb_spec x 0xFFFF), (Z.leb_spec 0 y), (Z.leb_spec y 0xFFFF);
    simpl; try reflexivity; lia.
Qed.

Lemma is_channel_data_range b0 rest :
  0x40 <= byte_to_Z b0 <= 0x7F -> is_channel_data (b0 :: rest) = Return true.
Proof.
  unfold is_channel_data. intros H. f_equal. revert H.
  destruct b0; vm_compute; intros [H1 H2]; first [reflexivity | now elim H1 | now elim H2].
Qed.

(** The frame of [data] on [channel], as the receiving side sees it. *)
Lemma channel_data_frame data addr channel wr from rcv :
  0x4000 <= channel <= 0x7FFF ->
  len data <= 0xFFFF ->
  channel_to_peer (self wr) !! channel = Some addr ->
  receiver (self wr) = Some rcv ->
  exists header,
    pack_HH channel (len data) = Return header
    /\ len (header ++ data) = 4 + len data
    /\ complete_frame (header ++ data)
    /\ datagram_received (header ++ data) from wr
       = (emit (receiver_datagram_received data addr) wr, Return tt).
Proof.
  intros Hch Hlen Hwr Hrcv.
  pose proof (len_nonneg data) as Hnn.
  destruct (pack_HH_in_range channel (len data)) as (b0 & b1 & b2 & b3 & Hp & H0 & H1 & H2 & H3);
    [lia|lia|].
  assert (Hc : 256 * byte_to_Z b0 + byte_to_Z b1 = channel)
    by (rewrite H0, H1; pose proof (Z.div_mod channel 256); lia).
  assert (Hl : 256 * byte_to_Z b2 + byte_to_Z b3 = len data)
    by (rewrite H2, H3; pose proof (Z.div_mod (len data) 256); lia).
  assert (Htop : 0x40 <= byte_to_Z b0 <= 0x7F).
  { rewrite H0. Z.div_mod_to_equations. lia. }
  exists [b0; b1; b2; b3]. split; [exact Hp|]. split; [|split].
  - simpl. rewrite !len_cons. lia.
  - unfold complete_frame. simpl app. cbv beta iota zeta delta [declared_length].
    pose proof (is_channel_data_range b0 [] Htop) as Hcd.
    rewrite is_channel_data_testbit in Hcd.
    assert (Hbits : negb (Z.testbit (byte_to_Z b0) 7) && Z.testbit (byte_to_Z b0) 6 = true)
      by congruence.
    rewrite Hbits, Hl, !len_cons. f_equal. lia.
  - unfold datagram_received. simpl app.
    rewrite (proj2 (Z.leb_le 4 _)) by (rewrite !len_cons; lia).
    rewrite (is_channel_data_range b0 _ Htop), slice_header. simpl unpack_HH.
    cbv iota beta. rewrite Hc, Hl.
    rewrite (proj2 (Z.leb_le _ _)) by (rewrite !len_cons; lia).
    rewrite Hrcv, Hwr. simpl andb. cbv iota.
    rewrite slice_payload by lia. unfold len. rewrite Nat2Z.id, take_ge by lia. done.
Qed.

(** X11. Round trip of the ChannelData format.  On a channel in 0x4000-0x7FFF and
    with at most 65535 bytes of data, [send_data] writes one frame of
    4 + len(data) bytes to the transport; this frame is a complete frame for
    the stream reassembly, and [datagram_received], on a client that binds
    the channel to the peer and has a receiver, hands exactly the data and
    the peer address to the receiver. *)
Theorem channel_data_round_trip
    (data : bytes) (addr : address) (channel : Z) (w : world) (tr : Transport)
    (wr : world) (from : option address) (rcv : nat) :
  peer_to_channel (self w) !! addr = Some channel ->
  transport (self w) = Some tr ->
  0x4000 <= channel <= 0x7FFF ->
  len data <= 0xFFFF ->
  channel_to_peer (self wr) !! channel = Some addr ->
  receiver (self wr) = Some rcv ->
  exists frame,
    send_data data addr w = Done (emit (transport_send frame) w) (Return tt)
    /\ len frame = 4 + len data
    /\ complete_frame frame
    /\ datagram_received frame from wr
       = (emit (receiver_datagram_received data addr) wr, Return tt).
Proof.
  intros Hb Htr Hch Hlen Hwr Hrcv.
  destruct (channel_data_frame data addr channel wr from rcv Hch Hlen Hwr Hrcv)
    as (header & Hp & Hl & Hc & Hdr).
  exists (header ++ data). split; [|done].
  rewrite send_data_cases, Hb. unfold_coro. simpl. rewrite Hp. simpl.
  unfold _send. now rewrite Htr.
Qed.

(** X12. The same frame over a stream: cut into chunks at any places and fed to
    [data_received] of a connected client with an empty buffer, it makes the
    receiver get the data and the peer address once, and leaves nothing
    buffered. *)
Theorem channel_data_over_stream
    (data : bytes) (addr : address) (channel : Z) (header : bytes)
    (wr : world) (tr : Transport) (rcv : nat) (chunks : list bytes) :
  0x4000 <= channel <= 0x7FFF ->
  len data <= 0xFFFF ->
  pack_HH channel (len data) = Return header ->
  concat chunks = header ++ data ->
  transport (self wr) = Some tr ->
  buffered wr = [] ->
  channel_to_peer (self wr) !! channel = Some addr ->
  receiver (self wr) = Some rcv ->
  exists w',
    feed chunks wr = (w', Return tt)
    /\ buffered w' = []
    /\ without_buffer w' = without_buffer (emit (receiver_datagram_received data addr) wr).
Proof.
  intros Hch Hlen Hp Hcat Htr Hbuf Hwr Hrcv.
  destruct (channel_data_frame data addr channel wr (peername tr) rcv Hch Hlen Hwr Hrcv)
    as (header' & Hp' & Hl & Hc & Hdr).
  rewrite Hp in Hp'. injection Hp' as <-.
  destruct (feed_splits chunks wr tr [] [header ++ data] [] Htr Hbuf incomplete_nil)
    as (w' & Hfeed & Hb' & Hw').
  { unfold splits. simpl. rewrite Hcat, !app_nil_r.
    split; [reflexivity|]. split; [now repeat constructor|exact I]. }
  exists w'. split; [exact Hfeed|]. split; [exact Hb'|].
  rewrite Hw'. simpl. now rewrite Hdr.
Qed.

(** X13. More than 65535 bytes of data cannot be framed: [send_data] raises
    [struct.error] and writes nothing.  The length is looked at only when the
    header is packed: on the first send to a peer the channel has been
    recorded and its CHANNEL-BIND run by then. *)
Theorem send_data_oversize (data : bytes) (addr : address) (w : world) :
  0xFFFF < len data ->
  (forall channel,
      peer_to_channel (self w) !! addr = Some channel ->
      send_data data addr w = Done w (Raise StructError))
  /\ (forall v,
        peer_to_channel (self w) !! addr = None ->
        transactions (self w) !! random_transaction_id (drawn w) = None ->
        exists w2 t,
          run_script (send_data data addr w) [ResumeRun (Return v)]
          = Done w2 (Raise StructError)
          /\ message_method (t_request t) = CHANNEL_BIND
          /\ trace w2 = trace w ++ [transaction_run t]
          /\ peer_to_channel (self w2) !! addr = Some (channel_number (self w))
          /\ channel_number (self w2) = channel_number (self w) + 1).
Proof.
  intros Hlen. split.
  - intros channel Hb. rewrite send_data_cases, Hb. unfold_coro. simpl.
    now rewrite pack_HH_out_of_range by lia.
  - intros v Hb Hfresh.
    destruct (send_data_unbound data addr w Hb Hfresh)
      as (w1 & t & k & Hs & Ht & Hw1 & Htr & Hk).
    assert (Hreg : is_Some (transactions (self w1) !! random_transaction_id (drawn w)))
      by (rewrite Hw1; simpl; rewrite lookup_insert_eq; eauto).
    specialize (Hk (Return v) w1 Hreg). cbv zeta in Hk.
    rewrite pack_HH_out_of_range in Hk by lia.
    pose proof (authenticated_fields (bind_recorded addr w) (bind_request addr w))
      as (Hm & _).
    pose proof (bind_recorded_lookup addr w) as (Hp & _ & Hn).
    rewrite Hs. simpl. rewrite run_script_nil, Hk.
    eexists _, t. split; [reflexivity|]. rewrite Ht. split; [exact Hm|].
    split; [exact Htr|]. simpl. rewrite Hw1. simpl. done.
Qed.

(** ** [data_received] in any state *)

Lemma incomplete_cases rest :
  incomplete rest <->
  len rest < 4 \/ exists n, declared_length rest = Some n /\ len rest < n.
Proof.
  unfold incomplete. destruct (declared_length rest) as [n|] eqn:E.
  - split; [intros H; right; eauto|].
    intros [H|(m & [= <-] & H)]; [|done].
    apply declared_length_ge in E. lia.
  - split; [|done]. intros _. left.
    destruct rest as [|b0 [|b1 [|b2 [|b3 r]]]]; try discriminate; vm_compute; done.
Qed.


Lemma loop_iteration_no_transport w f more :
  transport (self w) = None ->
  buffer (self w) = Some (f ++ more) ->
  complete_frame f ->
  loop_iteration w = Raised w (AttributeError "transport").
Proof.
  intros Htr Hbuf Hc. unfold loop_iteration. rewrite Hbuf.
  pose proof (declared_length_ge _ _ Hc) as [_ H4].
  assert (Hlen : len (f ++ more) = len f + len more)
    by (unfold len; rewrite length_app; lia).
  pose proof (len_nonneg more) as Hmore.
  rewrite (proj2 (Z.leb_le 4 (len (f ++ more)))) by lia.
  unfold complete_frame in Hc.
  destruct f as [|b0 [|b1 [|b2 [|b3 r]]]]; try discriminate.
  cbn [app].
  rewrite slice_header, is_channel_data_testbit. simpl unpack_HH. cbv iota beta.
  cbv beta iota zeta delta [declared_length] in Hc. apply (inj Some) in Hc.
  replace (if negb (Z.testbit (byte_to_Z b0) 7) && Z.testbit (byte_to_Z b0) 6
           then 4 + (256 * byte_to_Z b2 + byte_to_Z b3)
           else 20 + (256 * byte_to_Z b2 + byte_to_Z b3))
    with (len (b0 :: b1 :: b2 :: b3 :: r))
    by (rewrite <- Hc; now destruct (_ && _)).
  change (b0 :: b1 :: b2 :: b3 :: r ++ more) with ((b0 :: b1 :: b2 :: b3 :: r) ++ more).
  rewrite (proj2 (Z.ltb_ge _ _)) by lia.
  now rewrite Htr.
Qed.

(** X15. Before [connection_made], [data_received] only buffers: while the bytes
    buffered so far do not hold a complete frame it returns normally; once
    they do, it raises [AttributeError] (there is no transport to ask for
    the peer name), with nothing dispatched and every byte still buffered. *)
Theorem data_received_without_transport (data : bytes) (w : world) :
  transport (self w) = None ->
  let bytes_now := buffered w ++ data in
  (len bytes_now < 4 \/ (exists n, declared_length bytes_now = Some n /\ len bytes_now < n) ->
   data_received data w = (upd (set_buffer (Some bytes_now)) w, Return tt))
  /\ (forall f more,
        complete_frame f -> bytes_now = f ++ more ->
        data_received data w
        = (upd (set_buffer (Some bytes_now)) w, Raise (AttributeError "transport"))).
Proof.
  intros Htr bytes_now. split.
  - intros Hinc. apply incomplete_cases in Hinc.
    rewrite data_received_loop_buffer, data_received_loop_step.
    now rewrite (loop_iteration_incomplete _ bytes_now).
  - intros f more Hf Hbytes.
    rewrite data_received_loop_buffer, data_received_loop_step.
    rewrite (loop_iteration_no_transport _ f more); [done|done| |done].
    simpl. now rewrite <- Hbytes.
Qed.

(** ** Outstanding requests *)

Lemma request_suspends req w :
  transactions (self w) !! transaction_id req = None ->
  exists w1 t k,
    request req w = AwaitRun w1 t k
    /\ self w1 = set_transactions (<[transaction_id req := t]> (transactions (self w)))
                                  (self w)
    /\ trace w1 = trace w ++ [transaction_run t]
    /\ (forall r w', is_Some (transactions (self w') !! transaction_id req) ->
          k r w' = Done (release (transaction_id req) w') r).
Proof.
  intros Hfresh. rewrite (request_start req w Hfresh). cbv zeta.
  eexists _, _, _. split; [reflexivity|]. split; [reflexivity|]. split; [reflexivity|].
  intros r w' [t Ht]. now rewrite Ht.
Qed.

Lemma release_lookup tid w :
  transactions (self (release tid w)) = base.delete tid (transactions (self w)).
Proof. reflexivity. Qed.

(** X16. Two requests with different transaction ids can be outstanding at the
    same time: while both wait, both are registered; when one of them
    completes, with whatever result, only its own entry is removed and the
    other stays registered; when the other completes too, the registry is
    what it was before the two calls. *)
Theorem requests_are_independent
    (req1 req2 : Message) (w : world)
    (r1 r2 : result (Message * option address)) :
  transaction_id req1 <> transaction_id req2 ->
  transactions (self w) !! transaction_id req1 = None ->
  transactions (self w) !! transaction_id req2 = None ->
  exists w1 t1 k1 w2 t2 k2 w3 w4,
    request req1 w = AwaitRun w1 t1 k1
    /\ request req2 w1 = AwaitRun w2 t2 k2
    /\ transactions (self w2) !! transaction_id req1 = Some t1
    /\ transactions (self w2) !! transaction_id req2 = Some t2
    /\ k1 r1 w2 = Done w3 r1
    /\ transactions (self w3) !! transaction_id req1 = None
    /\ transactions (self w3) !! transaction_id req2 = Some t2
    /\ k2 r2 w3 = Done w4 r2
    /\ transactions (self w4) = transactions (self w).
Proof.
  intros Hne Hf1 Hf2.
  destruct (request_suspends req1 w Hf1) as (w1 & t1 & k1 & Hq1 & Hw1 & _ & Hk1).
  assert (Hf2' : transactions (self w1) !! transaction_id req2 = None)
    by (rewrite Hw1; simpl; now rewrite lookup_insert_ne).
  destruct (request_suspends req2 w1 Hf2') as (w2 & t2 & k2 & Hq2 & Hw2 & _ & Hk2).
  assert (H21 : transactions (self w2) !! transaction_id req1 = Some t1).
  { rewrite Hw2. simpl. rewrite lookup_insert_ne by (intros E; now apply Hne).
    rewrite Hw1. simpl. apply lookup_insert_eq. }
  assert (H22 : transactions (self w2) !! transaction_id req2 = Some t2)
    by (rewrite Hw2; simpl; apply lookup_insert_eq).
  set (w3 := release (transaction_id req1) w2).
  assert (H32 : transactions (self w3) !! transaction_id req2 = Some t2)
    by (subst w3; rewrite release_lookup, lookup_delete_ne by done; exact H22).
  exists w1, t1, k1, w2, t2, k2, w3, (release (transaction_id req2) w3).
  split; [exact Hq1|]. split; [exact Hq2|]. split; [exact H21|]. split; [exact H22|].
  split; [apply Hk1; eauto|].
  split; [subst w3; rewrite release_lookup; apply lookup_delete_eq|].
  split; [exact H32|]. split; [apply Hk2; eauto|].
  subst w3. rewrite !release_lookup, Hw2. simpl. rewrite Hw1. simpl.
  rewrite delete_insert_ne by done.
  rewrite delete_insert_id
    by (rewrite lookup_delete_ne, lookup_insert_ne by done; exact Hf2).
  now rewrite delete_insert_id.
Qed.

(** X17. While a request is outstanding, a datagram that is not ChannelData and
    parses as a RESPONSE or ERROR message with the transaction id of the
    request is handed to its transaction, and the entry stays registered;
    once the request has completed, the same datagram changes nothing: a
    late or repeated response is dropped. *)
Theorem response_reaches_outstanding_request
    (req : Message) (w : world) (data : bytes) (from : option address) (m : Message)
    (r : result (Message * option address)) :
  transactions (self w) !! transaction_id req = None ->
  ~ channel_data_header data ->
  parse_message data = Some m ->
  message_class m = RESPONSE \/ message_class m = ERROR ->
  transaction_id m = transaction_id req ->
  exists w1 t k w2,
    request req w = AwaitRun w1 t k
    /\ datagram_received data from w1
       = (emit (response_received (transaction_id req) m from) w1, Return tt)
    /\ k r (datagram_received data from w1).1 = Done w2 r
    /\ transactions (self w2) = transactions (self w)
    /\ datagram_received data from w2 = (w2, Return tt).
Proof.
  intros Hfresh Hncd Hparse Hclass Htid.
  assert (Hdr : forall w0,
             datagram_received data from w0 =
             if bool_decide (is_Some (transactions (self w0) !! transaction_id req))
             then (emit (response_received (transaction_id req) m from) w0, Return tt)
             else (w0, Return tt)).
  { intros w0. unfold datagram_received.
    assert (Hcd : (if 4 <=? len data then is_channel_data data else Return false)
                  = Return false).
    { destruct (4 <=? len data) eqn:H4; [|done].
      destruct data as [|b0 [|b1 [|b2 [|b3 rest]]]]; try (vm_compute in H4; discriminate).
      now apply is_channel_data_not_top_bits. }
    rewrite Hcd, Hparse, Htid.
    replace (is_response (message_class m)) with true
      by (unfold is_response; destruct Hclass as [-> | ->]; reflexivity).
    simpl andb. destruct (transactions (self w0) !! transaction_id req) eqn:E.
    - now rewrite bool_decide_eq_true_2 by eauto.
    - now rewrite bool_decide_eq_false_2 by (apply is_Some_None). }
  destruct (request_suspends req w Hfresh) as (w1 & t & k & Hq & Hw1 & _ & Hk).
  assert (Hreg : is_Some (transactions (self w1) !! transaction_id req))
    by (rewrite Hw1; simpl; rewrite lookup_insert_eq; eauto).
  set (w1' := emit (response_received (transaction_id req) m from) w1).
  exists w1, t, k, (release (transaction_id req) w1').
  split; [exact Hq|]. rewrite (Hdr w1), bool_decide_eq_true_2 by exact Hreg.
  split; [reflexivity|]. simpl. fold w1'.
  split; [apply Hk; exact Hreg|].
  assert (Hrel : transactions (self (release (transaction_id req) w1'))
                 = transactions (self w)).
  { rewrite release_lookup. subst w1'. simpl. rewrite Hw1. simpl.
    now apply delete_insert_id. }
  split; [exact Hrel|].
  rewrite Hdr, bool_decide_eq_false_2; [done|].
  rewrite Hrel, Hfresh. apply is_Some_None.
Qed.

(** ** Channel numbers are issued without gaps *)

(** One change of the binding table and its counter: none, or the recording
    of a peer that is not bound, on the channel of the counter, which moves
    on by one. *)
Definition table_step (c c' : TurnClient) : Prop :=
  same_table c c'
  \/ exists addr,
       peer_to_channel c !! addr = None
       /\ channel_to_peer c' = <[channel_number c := addr]> (channel_to_peer c)
       /\ peer_to_channel c' = <[addr := channel_number c]> (peer_to_channel c)
       /\ channel_number c' = channel_number c + 1.

Definition evolves (w w' : world) : Prop := rtc table_step (self w) (self w').

Fixpoint tracked {A} (w0 : world) (s : step A) : Prop :=
  match s with
  | Done w _ => evolves w0 w
  | AwaitRun w _ k => evolves w0 w /\ forall r w', tracked w' (k r w')
  | AwaitSleep w _ k => evolves w0 w /\ forall r w', tracked w' (k r w')
  end.

Definition tracked_coro {A} (m : coro A) : Prop := forall w, tracked w (m w).

Definition continuation_tracked (s : suspended) : Prop :=
  match s with
  | OnRun k => forall r w', tracked w' (k r w')
  | OnSleep k => forall r w', tracked w' (k r w')
  end.

(** The channels bound are those from 0x4000 up to the counter, and there
    are as many peers bound. *)
Definition contiguous (c : TurnClient) : Prop :=
  0x4000 <= channel_number c
  /\ (forall channel,
        is_Some (channel_to_peer c !! channel) <-> 0x4000 <= channel < channel_number c)
  /\ Z.of_nat (size (peer_to_channel c)) = channel_number c - 0x4000.

Lemma evolves_refl w : evolves w w.
Proof. apply rtc_refl. Qed.

Lemma evolves_trans w1 w2 w3 : evolves w1 w2 -> evolves w2 w3 -> evolves w1 w3.
Proof. unfold evolves. intros H12 H23. etrans; eassumption. Qed.

Lemma same_table_evolves w w' : same_table (self w) (self w') -> evolves w w'.
Proof. intros H. apply rtc_once. now left. Qed.

Lemma tracked_weaken {A} w0 w1 (s : step A) : evolves w0 w1 -> tracked w1 s -> tracked w0 s.
Proof.
  intros H01. destruct s as [w r|w t k|w l k]; simpl.
  - now apply evolves_trans.
  - intros [? ?]. split; [now apply evolves_trans with w1|done].
  - intros [? ?]. split; [now apply evolves_trans with w1|done].
Qed.

Lemma tracked_bind_step {A B} w0 (s : step A) (f : A -> coro B) :
  tracked w0 s -> (forall a, tracked_coro (f a)) -> tracked w0 (bind_step s f).
Proof.
  intros Hs Hf. revert w0 Hs.
  induction s as [w [a|e]|w t k IH|w l k IH]; intros w0 Hs; simpl in *.
  - eapply tracked_weaken; [exact Hs|apply Hf].
  - done.
  - destruct Hs as [? Hk]. split; [done|]. intros r w'. apply IH, Hk.
  - destruct Hs as [? Hk]. split; [done|]. intros r w'. apply IH, Hk.
Qed.

Lemma tracked_catch_step {A} w0 (s : step A) (h : exn -> option (coro A)) :
  tracked w0 s -> (forall e handler, h e = Some handler -> tracked_coro handler) ->
  tracked w0 (catch_step s h).
Proof.
  intros Hs Hh. revert w0 Hs.
  induction s as [w [a|e]|w t k IH|w l k IH]; intros w0 Hs; simpl in *.
  - done.
  - destruct (h e) as [handler|] eqn:He; [|done].
    eapply tracked_weaken; [exact Hs|now apply (Hh e)].
  - destruct Hs as [? Hk]. split; [done|]. intros r w'. apply IH, Hk.
  - destruct Hs as [? Hk]. split; [done|]. intros r w'. apply IH, Hk.
Qed.

Lemma tracked_forget {A} w0 (s : step A) : tracked w0 s -> tracked w0 (forget s).
Proof.
  revert w0. induction s as [w [a|e]|w t k IH|w l k IH]; intros w0 Hs; simpl in *; try done.
  - destruct Hs as [? Hk]. split; [done|]. intros r w'. apply IH, Hk.
  - destruct Hs as [? Hk]. split; [done|]. intros r w'. apply IH, Hk.
Qed.

Lemma tracked_done {A} w w' (r : result A) :
  same_table (self w) (self w') -> tracked w (Done w' r).
Proof. apply same_table_evolves. Qed.

Lemma tracked_ret {A} (a : A) : tracked_coro (ret a).
Proof. intros w. apply evolves_refl. Qed.

Lemma tracked_raise {A} e : tracked_coro (@raise A e).
Proof. intros w. apply evolves_refl. Qed.

Lemma tracked_gets {A} (f : TurnClient -> A) : tracked_coro (gets f).
Proof. intros w. apply evolves_refl. Qed.

Lemma tracked_of_result {A} (r : result A) : tracked_coro (of_result r).
Proof. intros w. apply evolves_refl. Qed.

Lemma tracked_item {A} key (o : option A) : tracked_coro (item key o).
Proof. destruct o; [apply tracked_ret|apply tracked_raise]. Qed.

Lemma tracked_modify f : (forall c, same_table c (f c)) -> tracked_coro (modify f).
Proof. intros Hf w. apply tracked_done, Hf. Qed.

Lemma tracked_call e : tracked_coro (call e).
Proof. intros w. apply tracked_done, same_table_refl. Qed.

Lemma tracked_lift {A} (f : world -> world * result A) :
  (forall w, same_table (self w) (self (f w).1)) -> tracked_coro (lift f).
Proof.
  intros Hf w. unfold lift. specialize (Hf w). destruct (f w). now apply tracked_done.
Qed.

Lemma tracked_bind {A B} (m : coro A) (f : A -> coro B) :
  tracked_coro m -> (forall a, tracked_coro (f a)) -> tracked_coro (bind m f).
Proof. intros Hm Hf w. apply tracked_bind_step; [apply Hm|exact Hf]. Qed.

Lemma tracked_try_except {A} (m : coro A) h :
  tracked_coro m -> (forall e handler, h e = Some handler -> tracked_coro handler) ->
  tracked_coro (try_except m h).
Proof. intros Hm Hh w. apply tracked_catch_step; [apply Hm|exact Hh]. Qed.

Lemma tracked_draw_transaction_id : tracked_coro draw_transaction_id.
Proof. intros w. apply tracked_done, same_table_refl. Qed.

Lemma tracked_new_message m c : tracked_coro (new_message m c).
Proof. apply tracked_bind; [apply tracked_draw_transaction_id|intros; apply tracked_ret]. Qed.

Lemma tracked_sleep l : tracked_coro (sleep l).
Proof.
  intros w. simpl. split; [apply evolves_refl|]. intros r w'. apply evolves_refl.
Qed.

Lemma tracked_ensure_future_refresh : tracked_coro ensure_future_refresh_.
Proof. intros w. apply tracked_done, same_table_refl. Qed.

Lemma tracked_request req : tracked_coro (request req).
Proof.
  intros w. unfold request. destruct (bool_decide _); [apply evolves_refl|].
  simpl. split; [apply same_table_evolves; same_table_tac|].
  intros r w'. destruct (_ !! _); [|apply evolves_refl].
  apply tracked_done. same_table_tac.
Qed.

Create HintDb tracked.
#[local] Hint Resolve tracked_ret tracked_raise tracked_gets tracked_of_result tracked_item
  tracked_call tracked_draw_transaction_id tracked_new_message tracked_sleep
  tracked_ensure_future_refresh tracked_request same_table_refl : tracked.

Ltac tracked_steps :=
  repeat first
    [ apply tracked_bind; [|intros ?]
    | apply tracked_modify; intros ?; same_table_tac
    | solve [auto with tracked]
    | match goal with
      | |- tracked_coro (if ?b then _ else _) => destruct b
      | |- tracked_coro (match ?o with Some _ => _ | None => _ end) => destruct o
      end ].

Lemma tracked_channel_bind channel addr : tracked_coro (channel_bind channel addr).
Proof. unfold channel_bind. tracked_steps. Qed.

Lemma tracked_connect : tracked_coro connect.
Proof.
  unfold connect. tracked_steps.
  apply tracked_try_except; [tracked_steps|].
  intros e handler He. destruct e; try discriminate.
  injection He as <-. tracked_steps.
Qed.

Lemma tracked_delete : tracked_coro delete.
Proof. unfold delete. tracked_steps. Qed.

Lemma tracked_refresh_body : tracked_coro refresh_body.
Proof. unfold refresh_body. tracked_steps. Qed.

Lemma bind_recorded_evolves addr w :
  peer_to_channel (self w) !! addr = None ->
  evolves w (set_self (bind_recorded addr w) w).
Proof.
  intros Hb. apply rtc_once. right. exists addr. split; [exact Hb|]. done.
Qed.

Lemma tracked_send_data data addr : tracked_coro (send_data data addr).
Proof.
  intros w. rewrite send_data_cases.
  assert (Htail : forall channel,
             tracked_coro (bind (of_result (pack_HH channel (len data)))
                                (fun header => lift (_send (header ++ data))))).
  { intros channel. apply tracked_bind; [auto with tracked|].
    intros header. apply tracked_lift. intros w'. apply _send_same_table. }
  destruct (peer_to_channel (self w) !! addr) eqn:Hb; [apply Htail|].
  apply (tracked_weaken w (set_self (bind_recorded addr w) w));
    [apply bind_recorded_evolves, Hb|].
  apply tracked_bind; [|exact Htail].
  apply tracked_bind; [apply tracked_channel_bind|auto with tracked].
Qed.

Lemma tracked_start c : tracked_coro (start c).
Proof.
  destruct c; simpl; intros w.
  - apply tracked_forget, tracked_connect.
  - apply tracked_delete.
  - apply tracked_refresh_body.
  - apply tracked_forget, tracked_request.
  - apply tracked_channel_bind.
  - apply tracked_send_data.
  - apply tracked_lift. intros w'. apply _send_same_table.
  - apply tracked_lift. intros w'. unfold same_table.
    now rewrite (proj1 (datagram_received_self data addr w')).
  - apply tracked_lift. intros w'. apply data_received_same_table.
  - apply tracked_lift. intros w'. same_table_tac.
  - apply tracked_modify. intros c. same_table_tac.
Qed.

Lemma absorb_evolves w s pool :
  Forall continuation_tracked pool ->
  tracked w s ->
  evolves w (absorb s pool).1 /\ Forall continuation_tracked (absorb s pool).2.
Proof.
  intros Hpool Hs. destruct s as [w' r|w' t k|w' l k]; simpl in *.
  - done.
  - destruct Hs as [Hk Hcont]. split; [done|].
    apply Forall_app. split; [done|]. now repeat constructor.
  - destruct Hs as [Hk Hcont]. split; [done|].
    apply Forall_app. split; [done|]. now repeat constructor.
Qed.

Lemma sys_step_evolves sys sys' :
  sys_step sys sys' ->
  Forall continuation_tracked sys.2 ->
  evolves sys.1 sys'.1 /\ Forall continuation_tracked sys'.2.
Proof.
  intros Hstep. destruct Hstep as [c w pool|i k r w pool Hi|i k r w pool Hi];
    simpl; intros Hpool.
  - apply absorb_evolves; [done|apply tracked_start].
  - apply absorb_evolves; [now apply Forall_delete|].
    apply (Forall_lookup_1 _ _ _ _ Hpool Hi).
  - apply absorb_evolves; [now apply Forall_delete|].
    apply (Forall_lookup_1 _ _ _ _ Hpool Hi).
Qed.

Lemma reachable_evolves c0 sys :
  reachable c0 sys -> rtc table_step c0 (self sys.1) /\ Forall continuation_tracked sys.2.
Proof.
  intros Hreach.
  apply (rtc_ind_r (R := sys_step)
           (fun sys => rtc table_step c0 (self sys.1) /\ Forall continuation_tracked sys.2)
           (fresh c0, [])); [| |exact Hreach].
  - split; [apply rtc_refl|constructor].
  - intros y z _ Hstep [Hev Hpool].
    destruct (sys_step_evolves _ _ Hstep Hpool) as [Hyz ?].
    split; [|done]. etrans; [exact Hev|exact Hyz].
Qed.

Lemma table_step_contiguous c c' : table_step c c' -> contiguous c -> contiguous c'.
Proof.
  intros [(H1 & H2 & H3)|(addr & Hfree & H1 & H2 & H3)] (Hlow & Hdom & Hsize);
    unfold contiguous; rewrite H1, H2, H3.
  - done.
  - split; [lia|]. split.
    + intros channel. rewrite lookup_insert_is_Some, Hdom. lia.
    + rewrite map_size_insert_None by exact Hfree. lia.
Qed.

Lemma evolves_contiguous c c' : rtc table_step c c' -> contiguous c -> contiguous c'.
Proof.
  induction 1 as [|x y z Hxy _ IH]; [done|].
  intros Hx. apply IH. now apply (table_step_contiguous x).
Qed.

Lemma init_contiguous server username password lifetime :
  contiguous (init server username password lifetime).
Proof.
  split; [simpl; lia|]. split.
  - intros channel. simpl. rewrite lookup_empty. split; [intros [? ?]; discriminate|lia].
  - simpl. rewrite map_size_empty. lia.
Qed.

(** X18. In every state that a freshly constructed client reaches, whatever
    methods and callbacks are called and however the suspended coroutines
    are resumed (also with failures), the channels bound are exactly the
    numbers from 0x4000 up to, and without, [channel_number]: no number is
    skipped or given twice, and the number of peers bound is
    [channel_number - 0x4000]. *)
Theorem channel_numbers_contiguous
    (server : address) (username password : str) (lifetime : Z)
    (sys : world * list suspended) :
  reachable (init server username password lifetime) sys ->
  0x4000 <= channel_number (self sys.1)
  /\ (forall channel,
        is_Some (channel_to_peer (self sys.1) !! channel)
        <-> 0x4000 <= channel < channel_number (self sys.1))
  /\ Z.of_nat (size (peer_to_channel (self sys.1))) = channel_number (self sys.1) - 0x4000.
Proof.
  intros Hreach.
  destruct (reachable_evolves _ _ Hreach) as [Hev _].
  exact (evolves_contiguous _ _ Hev (init_contiguous server username password lifetime)).
Qed.


(** ** [TurnTransport], the datagram transport over a TURN allocation *)

(** The attributes of the transport itself; [__inner_protocol] is the client
    of the world the transport runs in, an object shared with its other
    users. *)
Record TurnTransport := mkTurnTransport {
  protocol : nat;
  __relayed_address : option address
}.

(** The calls made on [self.protocol]. *)
Inductive protocol_call :=
| protocol_connection_made (transport : TurnTransport).

Definition TurnTransport_init (protocol : nat) (w : world) : TurnTransport * world :=
  (mkTurnTransport protocol None, upd (set_receiver (Some protocol)) w).

(** The value is an address or [None] for the two names of the transport,
    and the caller's [default] otherwise. *)
Definition get_extra_info {A} (name : str) (default : A) (t : TurnTransport) (w : world)
  : result (option address + A) :=
  if bool_decide (name = u "related_address") then
    match transport (self w) with
    | Some tr => Return (inl (sockname tr))
    | None => Raise (AttributeError "transport")
    end
  else if bool_decide (name = u "sockname") then Return (inl (__relayed_address t))
  else Return (inr default).

(** [_connect] gives back the transport as it has become, and the calls it
    made on [self.protocol]. *)
Definition _connect (t : TurnTransport) : coro (TurnTransport * list protocol_call) :=
  let* relayed := connect in
  let t := mkTurnTransport (protocol t) (Some relayed) in
  ret (t, [protocol_connection_made t]).

(** [Q] holds wherever the coroutine finishes, however it is resumed. *)
Fixpoint finishes_with {A} (Q : world -> result A -> Prop) (s : step A) : Prop :=
  match s with
  | Done w r => Q w r
  | AwaitRun _ _ k => forall r w', finishes_with Q (k r w')
  | AwaitSleep _ _ k => forall r w', finishes_with Q (k r w')
  end.

Lemma finishes_with_bind {A B} (Q : world -> result B -> Prop) (s : step A) (f : A -> coro B) :
  (forall a w, finishes_with Q (f a w)) ->
  (forall e w, Q w (Raise e)) ->
  finishes_with Q (bind_step s f).
Proof.
  intros Hf He. induction s as [w [a|e]|w t k IH|w l k IH]; simpl.
  - apply Hf.
  - apply He.
  - intros r w'. apply IH.
  - intros r w'. apply IH.
Qed.

Lemma finishes_with_run_script {A} (Q : world -> result A -> Prop) (s : step A) script w r :
  finishes_with Q s -> run_script s script = Done w r -> Q w r.
Proof.
  revert script. induction s as [w0 r0|w0 t k IH|w0 l k IH]; intros script Hs Hrun.
  - destruct script; simpl in Hrun; injection Hrun as <- <-; exact Hs.
  - destruct script as [|[r1|r1] rest]; simpl in Hrun; try discriminate.
    apply (IH r1 w0 rest); [apply Hs|exact Hrun].
  - destruct script as [|[r1|r1] rest]; simpl in Hrun; try discriminate.
    apply (IH r1 w0 rest); [apply Hs|exact Hrun].
Qed.

Lemma run_script_bind_done {A B} (s : step A) (f : A -> coro B) script w r :
  (forall a w1, exists w2 r2, f a w1 = Done w2 r2) ->
  run_script s script = Done w r ->
  run_script (bind_step s f) script
  = match r with
    | Return a => f a w
    | Raise e => Done w (Raise e)
    end.
Proof.
  intros Hf. revert script. induction s as [w0 r0|w0 t k IH|w0 l k IH]; intros script Hrun.
  - assert (Hd : Done w0 r0 = Done w r) by (destruct script; exact Hrun).
    injection Hd as -> ->. destruct r as [a|e].
    + simpl. destruct (Hf a w) as (w2 & r2 & ->). now destruct script.
    + now destruct script.
  - destruct script as [|[r1|r1] rest]; simpl in Hrun; try discriminate.
    simpl. now apply IH.
  - destruct script as [|[r1|r1] rest]; simpl in Hrun; try discriminate.
    simpl. now apply IH.
Qed.

(** Whenever [connect] returns, it returns the relayed address it has
    stored. *)
Lemma connect_returns_relayed_address w :
  finishes_with (fun w' r => match r with
                             | Return a => relayed_address (self w') = Some a
                             | Raise _ => True
                             end) (connect w).
Proof.
  unfold connect.
  do 4 (apply finishes_with_bind; [intros ? ?|done]).
  unfold item. destruct (XOR_RELAYED_ADDRESS _); simpl; done.
Qed.

(** X19. A transport made for [protocol] registers it as the receiver of the
    client, and knows no relayed address yet: ['sockname'] is [None], also
    when a default is given.  When [connect] of the client returns an
    address, [_connect] returns as well, the transport gives this address as
    ['sockname'], the client holds the same address as [relayed_address],
    and [connection_made] has been called once on the protocol, with the
    transport.  When [connect] raises, [_connect] raises the same exception
    and [connection_made] is not called.  ['related_address'] is the socket
    name of the client's own transport, and fails with [AttributeError] on a
    client that is not connected; any other name gives the default. *)
Theorem turn_transport_connect
    (p : nat) (w : world) (script : list resume) (w' : world) (r : result address) :
  let t0 := (TurnTransport_init p w).1 in
  let w0 := (TurnTransport_init p w).2 in
  run_script (connect w0) script = Done w' r ->
  receiver (self w0) = Some p
  /\ (forall A (d : A), get_extra_info (u "sockname") d t0 w0 = Return (inl None))
  /\ match r with
     | Return a =>
         let t1 := mkTurnTransport p (Some a) in
         run_script (_connect t0 w0) script
         = Done w' (Return (t1, [protocol_connection_made t1]))
         /\ relayed_address (self w') = Some a
         /\ forall A (d : A), get_extra_info (u "sockname") d t1 w' = Return (inl (Some a))
     | Raise e => run_script (_connect t0 w0) script = Done w' (Raise e)
     end
  /\ (forall A (d : A) t w1,
        get_extra_info (u "related_address") d t w1
        = match transport (self w1) with
          | Some tr => Return (inl (sockname tr))
          | None => Raise (AttributeError "transport")
          end)
  /\ (forall A (d : A) name t w1,
        name <> u "related_address" -> name <> u "sockname" ->
        get_extra_info name d t w1 = Return (inr d)).
Proof.
  intros t0 w0 Hrun. split; [reflexivity|]. split; [reflexivity|]. split; [|split].
  - unfold _connect, bind.
    erewrite run_script_bind_done; [| |exact Hrun].
    2: { intros a w1. eexists _, _. reflexivity. }
    destruct r as [a|e]; [|reflexivity].
    split; [reflexivity|]. split; [|reflexivity].
    exact (finishes_with_run_script _ _ _ _ _ (connect_returns_relayed_address w0) Hrun).
  - reflexivity.
  - intros A d name t w1 H1 H2. unfold get_extra_info.
    now rewrite !bool_decide_eq_false_2.
Qed.


End Client.

(** * A sample environment and worked scenarios *)

Module Sample.

(** A header-only STUN parser: twenty bytes of header, a body of the
    declared length, class and method from the message type, and the
    twelve bytes after the magic cookie as transaction id. *)
Definition parse_message (data : bytes) : option Message :=
  match data with
  | t0 :: t1 :: l0 :: l1 :: rest =>
      let type := 256 * byte_to_Z t0 + byte_to_Z t1 in
      let length := 256 * byte_to_Z l0 + byte_to_Z l1 in
      if len rest =? 16 + length then
        let class :=
          match Z.land type 0x0110 with
          | 0x0000 => REQUEST
          | 0x0010 => INDICATION
          | 0x0100 => RESPONSE
          | _ => ERROR
          end in
        let method :=
          match Z.land type 0x3EEF with
          | 1 => Some BINDING
          | 2 => Some SHARED_SECRET
          | 3 => Some ALLOCATE
          | 4 => Some REFRESH
          | 6 => Some SEND
          | 7 => Some DATA
          | 8 => Some CREATE_PERMISSION
          | 9 => Some CHANNEL_BIND
          | _ => None
          end in
        match method with
        | Some m => Some (mkMessage m class (take 12 (drop 4 rest)) no_attributes)
        | None => None
        end
      else None
  | _ => None
  end.

Definition message_bytes (m : Message) : bytes := transaction_id m.
Definition message_integrity (m : Message) (key : bytes) : bytes := key.
Definition message_fingerprint (m : Message) : Z := 0.
Definition random_transaction_id (n : nat) : bytes := MD5.le_bytes 12 (Z.of_nat n).

Definition server : address := (u "turn.example.org", 3478).
Definition peer : address := (u "198.51.100.9", 4000).
Definition client : TurnClient := init server (u "user") (u "pass") 600.

(** The client once [connection_made] has run. *)
Definition connected : world :=
  upd (set_transport (Some (mkTransport (Some server) None))) (fresh client).

Definition response (a : Attributes) : Message * option address :=
  (mkMessage ALLOCATE RESPONSE [] a, Some server).
Definition ok (a : Attributes) : resume := ResumeRun (Return (response a)).
Definition error (code : Z) (reason : str) (a : Attributes) : Message :=
  mkMessage ALLOCATE ERROR [] (set_ERROR_CODE (Some (code, reason)) a).
Definition failed (m : Message) : resume := ResumeRun (Raise (TransactionFailed m)).

Definition challenge : Message :=
  error 401 (u "Unauthorized")
        (set_REALM (Some (u "example.org")) (set_NONCE (Some (b "n1")) no_attributes)).
Definition forbidden : Message := error 403 (u "Forbidden") no_attributes.
Definition relayed : Attributes :=
  set_XOR_RELAYED_ADDRESS (Some (u "203.0.113.5", 56789)) no_attributes.

Definition connect := connect message_integrity message_fingerprint random_transaction_id.
Definition delete := delete message_integrity message_fingerprint random_transaction_id.
Definition send_data :=
  send_data message_integrity message_fingerprint random_transaction_id.
Definition send_all :=
  send_all message_integrity message_fingerprint random_transaction_id.
Definition request := request message_integrity message_fingerprint.

End Sample.

(** ** Worked scenarios of the specification *)

(** Known digests. *)
Example md5_empty :
  map byte_to_Z (MD5.digest [])
  = [0xd4; 0x1d; 0x8c; 0xd9; 0x8f; 0x00; 0xb2; 0x04;
     0xe9; 0x80; 0x09; 0x98; 0xec; 0xf8; 0x42; 0x7e].
Proof. vm_compute. reflexivity. Qed.

Example md5_abc :
  map byte_to_Z (MD5.digest (b "abc"))
  = [0x90; 0x01; 0x50; 0x98; 0x3c; 0xd2; 0x4f; 0xb0;
     0xd6; 0x96; 0x3f; 0x7d; 0x28; 0xe1; 0x7f; 0x72].
Proof. vm_compute. reflexivity. Qed.

Example integrity_key_sample :
  make_integrity_key (u "user") (u "example.org") (u "pass")
  = Return (MD5.digest (b "user:example.org:pass")).
Proof. vm_compute. reflexivity. Qed.

(** End-to-end scenario: 401 with realm and nonce, then 200 with
    XOR-RELAYED-ADDRESS 203.0.113.5:56789. *)
Example connect_end_to_end :
  finished (run_script (Sample.connect Sample.connected)
                       [Sample.failed Sample.challenge; Sample.ok Sample.relayed])
  = Some (Return (u "203.0.113.5", 56789)).
Proof. vm_compute. reflexivity. Qed.

(** The refusal of the first ALLOCATE with a code other than 401 is caught
    and dropped: [connect] goes on to read XOR-RELAYED-ADDRESS from the error
    response, so it ends with [KeyError], or returns normally when the error
    response happens to carry that attribute. *)
Example connect_refused_key_error :
  finished (run_script (Sample.connect Sample.connected) [Sample.failed Sample.forbidden])
  = Some (Raise (KeyError "XOR-RELAYED-ADDRESS")).
Proof. vm_compute. reflexivity. Qed.

Example connect_refused_returns :
  finished (run_script (Sample.connect Sample.connected)
                       [Sample.failed (Sample.error 403 (u "Forbidden") Sample.relayed)])
  = Some (Return (u "203.0.113.5", 56789)).
Proof. vm_compute. reflexivity. Qed.

(** ** Instances of the theorems, and counterexamples *)

(** The REFRESH requests with LIFETIME 0 run so far. *)
Definition teardowns (tr : list event) : nat :=
  length (List.filter (fun e => match e with
                                | transaction_run t => is_teardown (t_request t)
                                | _ => false
                                end) tr).

Lemma request_releases_transaction_witness :
  exists w1 t k,
    Sample.request (mkMessage REFRESH REQUEST (b "abcdefghijkl") no_attributes)
                   Sample.connected
    = AwaitRun w1 t k
    /\ forall r, exists w2,
         k r w1 = Done w2 r /\ transactions (self w2) = transactions (self Sample.connected).
Proof.
  destruct (proj2 (request_releases_transaction
                     Sample.message_integrity Sample.message_fingerprint
                     (mkMessage REFRESH REQUEST (b "abcdefghijkl") no_attributes)
                     Sample.connected) eq_refl)
    as (w1 & t & k & H1 & _ & _ & H2 & _).
  exists w1, t, k. split; [exact H1|exact H2].
Defined.

(** Relay demux scenario: channel 0x4000 bound to 198.51.100.9:4000, then a
    ChannelData frame of length 5 carrying "hello". *)
Definition bound : world :=
  upd (set_receiver (Some 0%nat))
      (Sample.send_all [(b "x", Sample.peer, Return (Sample.response no_attributes))]
                       Sample.connected).


Lemma send_data_binds_once_witness :
  exists w1 t k,
    Sample.send_data (b "one") Sample.peer Sample.connected = AwaitRun w1 t k
    /\ CHANNEL_NUMBER (attributes (t_request t)) = Some 0x4000
    /\ peer_to_channel (self w1) !! Sample.peer = Some 0x4000
    /\ sends_on_channel Sample.message_integrity Sample.message_fingerprint
         Sample.random_transaction_id (b "two") Sample.peer 0x4000 w1.
Proof.
  destruct (send_data_binds_once
              Sample.message_integrity Sample.message_fingerprint
              Sample.random_transaction_id (b "one") (b "two") Sample.peer
              Sample.connected eq_refl eq_refl)
    as (w1 & t & k & H1 & _ & _ & H2 & _ & _ & H3 & _ & H4 & _).
  exists w1, t, k. repeat split; assumption.
Defined.

Lemma failed_bind_not_rolled_back_witness :
  exists w2,
    run_script (Sample.send_data (b "one") Sample.peer Sample.connected)
               [Sample.failed Sample.forbidden]
    = Done w2 (Raise (TransactionFailed Sample.forbidden))
    /\ peer_to_channel (self w2) !! Sample.peer = Some 0x4000
    /\ channel_number (self w2) = 0x4001.
Proof.
  destruct (failed_bind_not_rolled_back
              Sample.message_integrity Sample.message_fingerprint
              Sample.random_transaction_id (b "one") (b "two") Sample.peer
              Sample.connected (TransactionFailed Sample.forbidden) eq_refl eq_refl)
    as (w2 & H1 & H2 & _ & H3 & _).
  exists w2. repeat split; assumption.
Defined.




(** The client after a successful [connect]: the refresh task is running. *)
Definition allocated_world : world :=
  world_of (run_script (Sample.connect Sample.connected)
                       [Sample.failed Sample.challenge; Sample.ok Sample.relayed]).

Lemma delete_twice_witness :
  exists w1 t1 k1 w2 w3 t2 k2 w4,
    Sample.delete allocated_world = AwaitRun w1 t1 k1
    /\ trace w1 = trace allocated_world ++ [future_cancel 0%nat; transaction_run t1]
    /\ refresh_handle (self w1) = None
    /\ k1 (Return (Sample.response no_attributes)) w1 = Done w2 (Return tt)
    /\ Sample.delete w2 = AwaitRun w3 t2 k2
    /\ trace w3 = trace w2 ++ [transaction_run t2]
    /\ is_teardown (t_request t2) = true
    /\ k2 (Raise (TransactionFailed Sample.forbidden)) w3
       = Done w4 (Raise (TransactionFailed Sample.forbidden)).
Proof.
  destruct (delete_twice
              Sample.message_integrity Sample.message_fingerprint
              Sample.random_transaction_id allocated_world 0%nat
              (Sample.response no_attributes) (Raise (TransactionFailed Sample.forbidden))
              eq_refl eq_refl eq_refl)
    as (w1 & t1 & k1 & w2 & w3 & t2 & k2 & w4
        & H1 & H2 & H3 & _ & H4 & _ & H5 & H6 & H7 & H8).
  exists w1, t1, k1, w2, w3, t2, k2, w4. repeat split; assumption.
Defined.

(** C2, as stated, fails: after a completed [delete], a second [delete]
    runs a second REFRESH with LIFETIME 0. *)
Lemma second_delete_sends_teardown :
  let s1 := run_script (Sample.delete allocated_world) [Sample.ok no_attributes] in
  let s2 := run_script (Sample.delete (world_of s1)) [Sample.ok no_attributes] in
  finished s1 = Some (Return tt)
  /\ teardowns (trace (world_of s1)) = 1%nat
  /\ finished s2 = Some (Return tt)
  /\ teardowns (trace (world_of s2)) = 2%nat.
Proof. vm_compute. repeat split; reflexivity. Qed.

Definition three_sends : list (bytes * address * result (Message * option address)) :=
  [(b "a", (u "198.51.100.9", 4000), Return (Sample.response no_attributes));
   (b "b", (u "198.51.100.9", 4001), Raise (TransactionFailed Sample.forbidden));
   (b "c", (u "198.51.100.10", 4000), Raise TransactionTimeout)].

Lemma channel_numbers_issued_witness :
  issued (trace (Sample.send_all three_sends Sample.connected)) = [0x4000; 0x4001; 0x4002]
  /\ Forall (fun c => 0x4000 <= c <= 0x7FFF)
            (issued (trace (Sample.send_all three_sends Sample.connected))).
Proof.
  destruct (channel_numbers_issued
              Sample.message_integrity Sample.message_fingerprint
              Sample.random_transaction_id Sample.server (u "user") (u "pass") 600
              (Some (mkTransport (Some Sample.server) None)) three_sends)
    as (H1 & _ & _ & _ & H2).
  - apply (bool_decide_unpack _). vm_compute. exact I.
  - split; [exact H1|]. apply H2. vm_compute. discriminate.
Defined.

(** A peer for every number. *)
Definition many_sends (n : nat)
  : list (bytes * address * result (Message * option address)) :=
  map (fun i => (b "x", (u "198.51.100.9", Z.of_nat i), Return (Sample.response no_attributes)))
      (seq 0 n).

Lemma many_sends_distinct n : NoDup (map (fun s => s.1.2) (many_sends n)).
Proof.
  unfold many_sends. rewrite map_map. simpl.
  apply NoDup_fmap_2; [|apply NoDup_seq].
  intros i j [= H]. lia.
Qed.

(** C4, as stated, fails: 16385 distinct peers are issued 16385 channel
    numbers, and the last one, 0x8000, lies outside 0x4000-0x7FFF. *)
Lemma channel_number_out_of_range :
  let sends := many_sends (Z.to_nat 16385) in
  NoDup (map (fun s => s.1.2) sends)
  /\ In 0x8000 (issued (trace (Sample.send_all sends (fresh Sample.client))))
  /\ ~ Forall (fun c => 0x4000 <= c <= 0x7FFF)
              (issued (trace (Sample.send_all sends (fresh Sample.client)))).
Proof.
  cbv zeta.
  pose proof (many_sends_distinct (Z.to_nat 16385)) as Hnd.
  destruct (send_all_issues
              Sample.message_integrity Sample.message_fingerprint
              Sample.random_transaction_id (many_sends (Z.to_nat 16385))
              (fresh Sample.client) eq_refl Hnd)
    as (_ & Hiss & _).
  { intros s _. apply lookup_empty. }
  assert (Hin : In 0x8000 (issued (trace (Sample.send_all (many_sends (Z.to_nat 16385))
                                                           (fresh Sample.client))))).
  { unfold Sample.send_all. rewrite Hiss. apply in_or_app. right.
    apply in_map_iff. exists (Z.to_nat 16384). split.
    - change (channel_number (self (fresh Sample.client))) with 0x4000. lia.
    - apply in_seq. unfold many_sends. rewrite length_map, length_seq. lia. }
  split; [exact Hnd|]. split; [exact Hin|].
  intros Hall. rewrite List.Forall_forall in Hall. specialize (Hall _ Hin). lia.
Qed.

(** Two frames, a ChannelData frame of two bytes and an empty STUN message,
    received in chunks of three bytes and a rest. *)
Definition two_frames : list bytes :=
  [[x40; x00; x00; x02; x68; x69];
   [x01; x01; x00; x00; x21; x12; xa4; x42] ++ b "abcdefghijkl"].

Definition chunked : list bytes :=
  [[x40; x00; x00]; [x02; x68; x69]; [x01; x01; x00];
   [x00; x21; x12; xa4; x42] ++ b "abcdefghijkl"].

Lemma stream_reassembly_witness :
  exists w1 w2,
    feed Sample.parse_message chunked Sample.connected = (w1, Return tt)
    /\ feed Sample.parse_message [concat chunked] Sample.connected = (w2, Return tt)
    /\ without_buffer w1
       = without_buffer (dispatch Sample.parse_message two_frames
                                  (Some Sample.server) Sample.connected)
    /\ without_buffer w2
       = without_buffer (dispatch Sample.parse_message two_frames
                                  (Some Sample.server) Sample.connected)
    /\ buffered w1 = []
    /\ buffered w2 = [].
Proof.
  destruct (stream_reassembly Sample.parse_message Sample.connected
              (mkTransport (Some Sample.server) None) chunked eq_refl eq_refl)
    as (frames & rest & w1 & w2 & _ & H1 & H2 & H3 & H4 & H5 & H6 & _ & Hfs).
  destruct (Hfs two_frames) as [-> ->].
  - repeat (constructor; [vm_compute; reflexivity|]). constructor.
  - vm_compute. reflexivity.
  - exists w1, w2. repeat split; assumption.
Defined.

Lemma binding_table_bijective_witness :
  let sys :=
    absorb (start Sample.parse_message Sample.message_bytes Sample.message_integrity
                  Sample.message_fingerprint Sample.random_transaction_id
                  (SendData (b "x") Sample.peer) (fresh Sample.client))
           [] in
  channel_to_peer (self sys.1) !! 0x4000 = Some Sample.peer
  <-> peer_to_channel (self sys.1) !! Sample.peer = Some 0x4000.
Proof.
  cbv zeta.
  refine (proj1 (binding_table_bijective
                   Sample.parse_message Sample.message_bytes Sample.message_integrity
                   Sample.message_fingerprint Sample.random_transaction_id
                   Sample.server (u "user") (u "pass") 600 _ _) 0x4000 Sample.peer).
  apply rtc_once. apply step_call.
Defined.

(** ** Instances of the further properties *)

(** A client holding long-term credentials. *)
Definition authenticated_world : world :=
  upd (fun c => set_integrity_key (Some (b "0123456789abcdef"))
                  (set_realm (Some (u "example.org")) (set_nonce (Some (b "n1")) c)))
      Sample.connected.

Lemma request_attaches_credentials_witness :
  exists w1 t k,
    Sample.request (mkMessage REFRESH REQUEST (b "abcdefghijkl") no_attributes)
                   authenticated_world
    = AwaitRun w1 t k
    /\ USERNAME (attributes (t_request t)) = Some (u "user")
    /\ NONCE (attributes (t_request t)) = Some (b "n1")
    /\ REALM (attributes (t_request t)) = Some (u "example.org")
    /\ MESSAGE_INTEGRITY (attributes (t_request t)) = Some (b "0123456789abcdef").
Proof.
  destruct (request_attaches_credentials
              Sample.message_integrity Sample.message_fingerprint
              (mkMessage REFRESH REQUEST (b "abcdefghijkl") no_attributes)
              authenticated_world eq_refl)
    as (w1 & t & k & H1 & _ & _ & _ & _ & _ & H2).
  assert (Hne : b "0123456789abcdef" <> []) by discriminate.
  destruct (H2 _ eq_refl Hne) as (Hu & Hn & Hr & Hmi & _).
  exists w1, t, k. repeat split; assumption.
Defined.

Lemma channel_bind_transaction_witness :
  exists w1 t k w2,
    channel_bind Sample.message_integrity Sample.message_fingerprint
                 Sample.random_transaction_id 0x4000 Sample.peer Sample.connected
    = AwaitRun w1 t k
    /\ CHANNEL_NUMBER (attributes (t_request t)) = Some 0x4000
    /\ XOR_PEER_ADDRESS (attributes (t_request t)) = Some Sample.peer
    /\ k (Return (Sample.response no_attributes)) w1 = Done w2 (Return tt)
    /\ self w2 = self Sample.connected.
Proof.
  destruct (channel_bind_transaction
              Sample.message_integrity Sample.message_fingerprint
              Sample.random_transaction_id 0x4000 Sample.peer Sample.connected
              (Return (Sample.response no_attributes)) eq_refl)
    as (w1 & t & k & w2 & H1 & _ & _ & H2 & H3 & _ & H4 & H5 & _).
  exists w1, t, k, w2. repeat split; assumption.
Defined.

Lemma connect_success_witness :
  exists w2,
    run_script (Sample.connect Sample.connected) [Sample.ok Sample.relayed]
    = Done w2 (Return (u "203.0.113.5", 56789))
    /\ self w2 = set_refresh_handle (Some 0%nat)
                   (set_relayed_address (Some (u "203.0.113.5", 56789))
                                        (self Sample.connected))
    /\ futures w2 = 1%nat.
Proof.
  destruct (connect_success
              Sample.message_integrity Sample.message_fingerprint
              Sample.random_transaction_id Sample.connected
              (Sample.response Sample.relayed).1 (Some Sample.server) eq_refl)
    as (w2 & t & _ & _ & _ & H1 & H2 & H3 & _).
  exists w2. split; [exact H1|]. split; [exact H2|exact H3].
Defined.

Lemma connect_propagates_other_exceptions_witness :
  exists w2,
    run_script (Sample.connect Sample.connected) [ResumeRun (Raise TransactionTimeout)]
    = Done w2 (Raise TransactionTimeout)
    /\ self w2 = self Sample.connected.
Proof.
  assert (Hother : forall response, TransactionTimeout <> TransactionFailed response)
    by (intros response; discriminate).
  destruct (connect_propagates_other_exceptions
              Sample.message_integrity Sample.message_fingerprint
              Sample.random_transaction_id Sample.connected TransactionTimeout
              eq_refl Hother)
    as (w2 & t & H1 & H2 & _).
  exists w2. split; [exact H1|exact H2].
Defined.

Lemma connect_challenge_missing_attribute_witness :
  exists w3,
    run_script (Sample.connect Sample.connected)
               [Sample.failed (Sample.error 401 (u "Unauthorized")
                                 (set_NONCE (Some (b "n1")) no_attributes))]
    = Done w3 (Raise (KeyError "REALM"))
    /\ self w3 = set_nonce (Some (b "n1")) (self Sample.connected).
Proof.
  destruct (connect_challenge_missing_attribute
              Sample.message_integrity Sample.message_fingerprint
              Sample.random_transaction_id Sample.connected
              (Sample.error 401 (u "Unauthorized") (set_NONCE (Some (b "n1")) no_attributes))
              eq_refl)
    as (w2 & t & _ & _ & _ & _ & H).
  destruct (H (u "Unauthorized") (b "n1") eq_refl eq_refl eq_refl) as (w3 & H1 & H2 & _).
  exists w3. split; [exact H1|exact H2].
Defined.

Lemma delete_failure_witness :
  exists w2,
    run_script (Sample.delete allocated_world) [ResumeRun (Raise TransactionTimeout)]
    = Done w2 (Raise TransactionTimeout)
    /\ self w2 = set_refresh_handle None (self allocated_world).
Proof.
  destruct (delete_failure
              Sample.message_integrity Sample.message_fingerprint
              Sample.random_transaction_id allocated_world TransactionTimeout eq_refl)
    as (w2 & t & H1 & _ & H2 & _).
  exists w2. split; [exact H1|exact H2].
Defined.

Lemma channel_data_round_trip_witness :
  exists frame,
    Sample.send_data (b "hello") Sample.peer bound
    = Done (emit (transport_send frame) bound) (Return tt)
    /\ len frame = 9
    /\ datagram_received Sample.parse_message frame (Some Sample.server) bound
       = (emit (receiver_datagram_received (b "hello") Sample.peer) bound, Return tt).
Proof.
  destruct (channel_data_round_trip
              Sample.parse_message Sample.message_integrity Sample.message_fingerprint
              Sample.random_transaction_id (b "hello") Sample.peer 0x4000 bound
              (mkTransport (Some Sample.server) None) bound (Some Sample.server) 0%nat
              eq_refl eq_refl ltac:(lia) ltac:(vm_compute; discriminate) eq_refl eq_refl)
    as (frame & H1 & H2 & _ & H3).
  exists frame. split; [exact H1|]. split; [exact H2|exact H3].
Defined.

Lemma channel_data_over_stream_witness :
  exists w',
    feed Sample.parse_message [[x40; x00; x00]; [x02; x68; x69]] bound = (w', Return tt)
    /\ buffered w' = []
    /\ without_buffer w'
       = without_buffer (emit (receiver_datagram_received (b "hi") Sample.peer) bound).
Proof.
  apply (channel_data_over_stream
           Sample.parse_message Sample.message_integrity Sample.random_transaction_id
           (b "hi") Sample.peer 0x4000 [x40; x00; x00; x02] bound
           (mkTransport (Some Sample.server) None) 0%nat
           [[x40; x00; x00]; [x02; x68; x69]]
           ltac:(lia) ltac:(vm_compute; discriminate) eq_refl eq_refl eq_refl eq_refl
           eq_refl eq_refl).
Defined.

Lemma send_data_oversize_witness :
  Sample.send_data (repeat x00 (Z.to_nat 65536)) Sample.peer bound
  = Done bound (Raise StructError).
Proof.
  assert (Hlen : 0xFFFF < len (repeat x00 (Z.to_nat 65536)))
    by (unfold len; rewrite repeat_length; lia).
  apply (proj1 (send_data_oversize
                  Sample.message_integrity Sample.message_fingerprint
                  Sample.random_transaction_id (repeat x00 (Z.to_nat 65536))
                  Sample.peer bound Hlen) 0x4000 eq_refl).
Defined.


Lemma data_received_without_transport_witness :
  data_received Sample.parse_message [x40; x00; x00; x00] (fresh Sample.client)
  = (upd (set_buffer (Some [x40; x00; x00; x00])) (fresh Sample.client),
     Raise (AttributeError "transport")).
Proof.
  apply (proj2 (data_received_without_transport
                  Sample.parse_message [x40; x00; x00; x00] (fresh Sample.client) eq_refl)
               [x40; x00; x00; x00] []); reflexivity.
Defined.

Lemma requests_are_independent_witness :
  exists w1 t1 k1 w2 t2 k2 w3 w4,
    Sample.request (mkMessage REFRESH REQUEST (b "abcdefghijkl") no_attributes)
                   Sample.connected
    = AwaitRun w1 t1 k1
    /\ Sample.request (mkMessage CHANNEL_BIND REQUEST (b "mnopqrstuvwx") no_attributes) w1
       = AwaitRun w2 t2 k2
    /\ k1 (Raise TransactionTimeout) w2 = Done w3 (Raise TransactionTimeout)
    /\ transactions (self w3) !! b "mnopqrstuvwx" = Some t2
    /\ k2 (Return (Sample.response no_attributes)) w3
       = Done w4 (Return (Sample.response no_attributes))
    /\ transactions (self w4) = transactions (self Sample.connected).
Proof.
  assert (Hne : b "abcdefghijkl" <> b "mnopqrstuvwx") by discriminate.
  destruct (requests_are_independent
              Sample.message_integrity Sample.message_fingerprint
              (mkMessage REFRESH REQUEST (b "abcdefghijkl") no_attributes)
              (mkMessage CHANNEL_BIND REQUEST (b "mnopqrstuvwx") no_attributes)
              Sample.connected (Raise TransactionTimeout)
              (Return (Sample.response no_attributes)) Hne eq_refl eq_refl)
    as (w1 & t1 & k1 & w2 & t2 & k2 & w3 & w4 & H1 & H2 & _ & _ & H3 & _ & H4 & H5 & H6).
  exists w1, t1, k1, w2, t2, k2, w3, w4. repeat split; assumption.
Defined.

(** A success response to the REFRESH request with transaction id
    "abcdefghijkl". *)
Definition refresh_response : bytes :=
  [x01; x04; x00; x00; x21; x12; xa4; x42] ++ b "abcdefghijkl".

Lemma response_reaches_outstanding_request_witness :
  exists w1 t k w2,
    Sample.request (mkMessage REFRESH REQUEST (b "abcdefghijkl") no_attributes)
                   Sample.connected
    = AwaitRun w1 t k
    /\ datagram_received Sample.parse_message refresh_response (Some Sample.server) w1
       = (emit (response_received (b "abcdefghijkl")
                  (mkMessage REFRESH RESPONSE (b "abcdefghijkl") no_attributes)
                  (Some Sample.server)) w1,
          Return tt)
    /\ datagram_received Sample.parse_message refresh_response (Some Sample.server) w2
       = (w2, Return tt).
Proof.
  assert (Hcd : ~ channel_data_header refresh_response)
    by (intros [_ H]; vm_compute in H; discriminate).
  destruct (response_reaches_outstanding_request
              Sample.parse_message Sample.message_integrity Sample.message_fingerprint
              (mkMessage REFRESH REQUEST (b "abcdefghijkl") no_attributes)
              Sample.connected refresh_response (Some Sample.server)
              (mkMessage REFRESH RESPONSE (b "abcdefghijkl") no_attributes)
              (Return (Sample.response no_attributes))
              eq_refl Hcd eq_refl (or_introl eq_refl) eq_refl)
    as (w1 & t & k & w2 & H1 & H2 & _ & _ & H3).
  exists w1, t, k, w2. split; [exact H1|]. split; [exact H2|exact H3].
Defined.

Lemma channel_numbers_contiguous_witness :
  let sys :=
    absorb (start Sample.parse_message Sample.message_bytes Sample.message_integrity
                  Sample.message_fingerprint Sample.random_transaction_id
                  (SendData (b "x") Sample.peer) (fresh Sample.client))
           [] in
  0x4000 <= channel_number (self sys.1)
  /\ (is_Some (channel_to_peer (self sys.1) !! 0x4000)
      <-> 0x4000 <= 0x4000 < channel_number (self sys.1))
  /\ Z.of_nat (size (peer_to_channel (self sys.1))) = channel_number (self sys.1) - 0x4000.
Proof.
  cbv zeta.
  destruct (channel_numbers_contiguous
              Sample.parse_message Sample.message_bytes Sample.message_integrity
              Sample.message_fingerprint Sample.random_transaction_id
              Sample.server (u "user") (u "pass") 600
              (absorb (start Sample.parse_message Sample.message_bytes
                             Sample.message_integrity Sample.message_fingerprint
                             Sample.random_transaction_id
                             (SendData (b "x") Sample.peer) (fresh Sample.client)) []))
    as (H1 & H2 & H3).
  - apply rtc_once. apply step_call.
  - split; [exact H1|]. split; [exact (H2 0x4000)|exact H3].
Defined.

Lemma turn_transport_connect_witness :
  let t0 := (TurnTransport_init 7 Sample.connected).1 in
  let w0 := (TurnTransport_init 7 Sample.connected).2 in
  let script := [Sample.failed Sample.challenge; Sample.ok Sample.relayed] in
  let t1 := mkTurnTransport 7 (Some (u "203.0.113.5", 56789)) in
  run_script (_connect Sample.message_integrity Sample.message_fingerprint
                       Sample.random_transaction_id t0 w0) script
  = Done (world_of (run_script (Sample.connect w0) script))
         (Return (t1, [protocol_connection_made t1]))
  /\ receiver (self w0) = Some 7%nat
  /\ get_extra_info (u "sockname") 0 t0 w0 = Return (inl None)
  /\ get_extra_info (u "sockname") 0 t1 (world_of (run_script (Sample.connect w0) script))
     = Return (inl (Some (u "203.0.113.5", 56789))).
Proof.
  cbv zeta.
  destruct (turn_transport_connect
              Sample.message_integrity Sample.message_fingerprint
              Sample.random_transaction_id 7%nat Sample.connected
              [Sample.failed Sample.challenge; Sample.ok Sample.relayed]
              (world_of (run_script
                           (Sample.connect (TurnTransport_init 7 Sample.connected).2)
                           [Sample.failed Sample.challenge; Sample.ok Sample.relayed]))
              (Return (u "203.0.113.5", 56789)))
    as (H1 & H2 & (H3 & _ & H4) & _).
  - vm_compute. reflexivity.
  - split; [exact H3|]. split; [exact H1|]. split; [exact (H2 Z 0)|exact (H4 Z 0)].
Defined.
